(** * Voting, karma and comment threads of the forum backend

    A shallow embedding of the Express/Mongoose handlers of
    [routes/posts.js] and [routes/comments.js] (vote on a post, vote on a
    comment, list the comments of a post, create and delete comments,
    delete a post) and of the membership requests of
    [routes/communities.js], together with the properties the design
    document states about them and further properties of the handlers.

    Collections are finite maps from [_id] to the stored document; the
    [voters] array embedded in a post or comment is a list; the Number
    fields are integers.  A handler is a computation over the database
    that can return early with a response or be interrupted by a rejected
    store call, in which case the surrounding [catch] answers. *)

From stdpp Require Import gmap list sorting strings.

From Stdlib Require Import ZArith.

Local Open Scope Z_scope.

(** * The model *)

(** ** Documents *)

Abbreviation ObjectId := nat (only parsing).

(** One entry of the [voters] array: [{ user, vote }]. *)
Record Voter := mkVoter { user : ObjectId; vote : Z }.

(** The three vote fields that the Post schema and the comment documents
    share: [upvotes], [downvotes] and [voters].  Both vote handlers run
    the same statements over these fields. *)
Record Votes := mkVotes {
  upvotes : Z;
  downvotes : Z;
  voters : list Voter
}.

(** models/Post.js, with the fields the handlers below read or write.
    The [_id] of a document is its key in the collection. *)
Record Post := mkPost {
  post_author : ObjectId;
  commentCount : Z;
  post_votes : Votes
}.

(** Modelled from the spec: the Comment schema (models/Comment.js) is
    not among the sources; the fields are those the comment routes use
    ([author], [post], [parentId], [createdAt] and the vote fields). *)
Record Comment := mkComment {
  comment_author : ObjectId;
  comment_post : ObjectId;
  parentId : option ObjectId;
  createdAt : Z;
  comment_votes : Votes
}.

(** Modelled from the spec: the User schema (models/User.js) is not
    among the sources; the vote handlers only write [karma]. *)
Record User := mkUser { karma : Z }.

Record DB := mkDB {
  posts : gmap nat Post;
  comments : gmap nat Comment;
  users : gmap nat User
}.

Global Instance Voter_eq_dec : EqDecision Voter.
Proof. solve_decision. Defined.

Global Instance Votes_eq_dec : EqDecision Votes.
Proof. solve_decision. Defined.

Global Instance Post_eq_dec : EqDecision Post.
Proof. solve_decision. Defined.

Global Instance Comment_eq_dec : EqDecision Comment.
Proof. solve_decision. Defined.

Global Instance User_eq_dec : EqDecision User.
Proof. solve_decision. Defined.

Definition set_votes_post (t : Votes) (p : Post) : Post :=
  mkPost (post_author p) (commentCount p) t.

Definition set_commentCount (n : Z) (p : Post) : Post :=
  mkPost (post_author p) n (post_votes p).

Definition set_votes_comment (t : Votes) (c : Comment) : Comment :=
  mkComment (comment_author c) (comment_post c) (parentId c) (createdAt c) t.

Definition set_karma (k : Z) (u : User) : User := mkUser k.

Definition set_posts (m : gmap nat Post) (db : DB) : DB :=
  mkDB m (comments db) (users db).

Definition set_comments (m : gmap nat Comment) (db : DB) : DB :=
  mkDB (posts db) m (users db).

Definition set_users (m : gmap nat User) (db : DB) : DB :=
  mkDB (posts db) (comments db) m.

(** The schema defaults of a new document: no votes. *)
Definition fresh : Votes := mkVotes 0 0 [].

(** ** Handlers as computations *)

(** What a handler sends: [res.status(code).json({ message })], the vote
    answer [{ message, upvotes, downvotes }] or another JSON body. *)
Inductive Response (A : Type) :=
  | Message (status : nat) (message : string)
  | VoteRecorded (up down : Z)
  | Json (status : nat) (body : A).

Arguments Message {A} _ _.

Arguments VoteRecorded {A} _ _.

Arguments Json {A} _ _.

(** The awaited Mongoose calls, by model and method. *)
Inductive Await :=
  | PostFindById | PostSave | PostRemove | PostAggregate
  | CommentFindById | CommentSave | CommentRemove | CommentDeleteMany
  | CommentAggregate
  | UserFindById | UserSave.

Global Instance Await_eq_dec : EqDecision Await.
Proof. solve_decision. Defined.

(** A fault names the store call that rejects and the error's message;
    [None] is a run in which every call resolves. *)
Abbreviation Fault := (option (Await * string)) (only parsing).

Inductive Outcome (R A : Type) :=
  | Val (a : A)
  | Return (r : Response R)
  | Throw (msg : string).

Arguments Val {R A} _.

Arguments Return {R A} _.

Arguments Throw {R A} _.

Definition M (R A : Type) : Type :=
  option (Await * string) → DB → Outcome R A * DB.

Definition ret {R A} (a : A) : M R A := λ _ db, (Val a, db).

Definition bind {R A B} (m : M R A) (k : A → M R B) : M R B :=
  λ flt db,
    match m flt db with
    | (Val a, db') => k a flt db'
    | (Return r, db') => (Return r, db')
    | (Throw e, db') => (Throw e, db')
    end.

(** [return res...json(...)] inside the [try] block. *)
Definition respond {R A} (r : Response R) : M R A := λ _ db, (Return r, db).

(** [await call]: the call rejects when the fault names it, and then
    leaves the store as it was; otherwise it runs on the store. *)
Definition await {R A} (a : Await) (call : DB → A * DB) : M R A :=
  λ flt db,
    match flt with
    | Some (a', msg) =>
        if decide (a' = a) then (Throw msg, db)
        else let '(x, db') := call db in (Val x, db')
    | None => let '(x, db') := call db in (Val x, db')
    end.

Global Instance handler_ret {R} : MRet (M R) := λ A, ret.

Global Instance handler_bind {R} : MBind (M R) := λ A B k m, bind m k.

(** [try { body } catch (err) { res.status(code).json({ message:
    err.message }) }]. *)
Definition handler {R} (code : nat) (body : M R (Response R))
    (flt : option (Await * string)) (db : DB) : Response R * DB :=
  match body flt db with
  | (Val r, db') => (r, db')
  | (Return r, db') => (r, db')
  | (Throw e, db') => (Message code e, db')
  end.

(** ** Store calls *)

Definition findById {A} (sel : DB → gmap nat A) (id : ObjectId)
    (db : DB) : option A * DB :=
  (sel db !! id, db).

Definition savePost (id : ObjectId) (p : Post) (db : DB) : unit * DB :=
  (tt, set_posts (<[id := p]> (posts db)) db).

Definition saveComment (id : ObjectId) (c : Comment) (db : DB) : unit * DB :=
  (tt, set_comments (<[id := c]> (comments db)) db).

Definition saveUser (id : ObjectId) (u : User) (db : DB) : unit * DB :=
  (tt, set_users (<[id := u]> (users db)) db).

Definition removeComment (id : ObjectId) (db : DB) : unit * DB :=
  (tt, set_comments (delete id (comments db)) db).

Definition removePost (id : ObjectId) (db : DB) : unit * DB :=
  (tt, set_posts (delete id (posts db)) db).

(** [Comment.deleteMany({ post: post._id })] *)
Definition deleteManyComments (postId : ObjectId) (db : DB) : unit * DB :=
  (tt, set_comments (filter (λ kc, comment_post kc.2 ≠ postId) (comments db)) db).

(** [Model.aggregate([{ $match: { author } }, { $group: { _id: null,
    karma: { $sum: { $subtract: ['$upvotes', '$downvotes'] } } } }])
    .then(result => (result[0]?.karma || 0))]: the sum of
    [upvotes - downvotes] over the documents of that author, [0] when
    there is none. *)
Definition net (t : Votes) : Z := upvotes t - downvotes t.

Definition aggregate {A} (author : A → ObjectId) (votes : A → Votes)
    (uid : ObjectId) (m : gmap nat A) : Z :=
  map_fold (λ _ d acc, if decide (author d = uid) then net (votes d) + acc
                       else acc) 0 m.

Definition aggregatePosts (uid : ObjectId) (db : DB) : Z * DB :=
  (aggregate post_author post_votes uid (posts db), db).

Definition aggregateComments (uid : ObjectId) (db : DB) : Z * DB :=
  (aggregate comment_author comment_votes uid (comments db), db).

(** ** The vote handlers *)

(** [[1, 0, -1].includes(vote)].  The body's [vote] is taken as an
    integer; any other JSON value fails the test as an integer outside
    the list does. *)
Definition validVote (v : Z) : bool :=
  bool_decide (v = 1) || bool_decide (v = 0) || bool_decide (v = -1).

(** [voters.findIndex(v => v.user.toString() === userId.toString())],
    with [None] for [-1]; the entry found comes with its index. *)
Definition findVoter (userId : ObjectId) (vs : list Voter)
    : option (nat * Voter) :=
  list_find (λ v, user v = userId) vs.

Definition decUp (t : Votes) : Votes :=
  mkVotes (upvotes t - 1) (downvotes t) (voters t).

Definition decDown (t : Votes) : Votes :=
  mkVotes (upvotes t) (downvotes t - 1) (voters t).

Definition incUp (t : Votes) : Votes :=
  mkVotes (upvotes t + 1) (downvotes t) (voters t).

Definition incDown (t : Votes) : Votes :=
  mkVotes (upvotes t) (downvotes t + 1) (voters t).

Definition set_voters (vs : list Voter) (t : Votes) : Votes :=
  mkVotes (upvotes t) (downvotes t) vs.

Definition set_vote (v : Z) (e : Voter) : Voter := mkVoter (user e) v.

(** [if (vote === 1) upvotes += 1; else if (vote === -1) downvotes += 1] *)
Definition addVote (v : Z) (t : Votes) : Votes :=
  if decide (v = 1) then incUp t
  else if decide (v = -1) then incDown t
  else t.

(** [if (existingVote === 1) upvotes -= 1;
     else if (existingVote === -1) downvotes -= 1] *)
Definition removeVote (existingVote : Z) (t : Votes) : Votes :=
  if decide (existingVote = 1) then decUp t
  else if decide (existingVote = -1) then decDown t
  else t.

(** The block "Check if user has already voted ... Update the vote
    count" of both vote handlers, on the fields of the loaded document. *)
Definition applyVote (userId : ObjectId) (v : Z) (t : Votes) : Votes :=
  match findVoter userId (voters t) with
  | Some (existingVoteIndex, existing) =>
      let t := removeVote (vote existing) t in
      if decide (v = 0) then
        set_voters (delete existingVoteIndex (voters t)) t
      else
        let t := set_voters (alter (set_vote v) existingVoteIndex (voters t)) t in
        addVote v t
  | None =>
      if decide (v ≠ 0) then
        let t := set_voters (voters t ++ [mkVoter userId v]) t in
        addVote v t
      else t
  end.

(** [router.post('/:id/vote')] of routes/posts.js. *)
Definition votePostBody (userId postId : ObjectId) (v : Z)
    : M unit (Response unit) :=
  if negb (validVote v) then respond (Message 400 "Invalid vote value") else
  found ← await PostFindById (findById posts postId);
  match found with
  | None => respond (Message 404 "Post not found")
  | Some post =>
      let post := set_votes_post (applyVote userId v (post_votes post)) post in
      await PostSave (savePost postId post);;
      author ← await UserFindById (findById users (post_author post));
      match author with
      | Some u =>
          k ← await PostAggregate (aggregatePosts (post_author post));
          await UserSave (saveUser (post_author post) (set_karma k u))
      | None => ret tt
      end;;
      ret (VoteRecorded (upvotes (post_votes post)) (downvotes (post_votes post)))
  end.

Definition votePost (userId postId : ObjectId) (v : Z) :=
  handler 400 (votePostBody userId postId v).

(** [router.post('/:id/vote')] of routes/comments.js. *)
Definition voteCommentBody (userId commentId : ObjectId) (v : Z)
    : M unit (Response unit) :=
  if negb (validVote v) then respond (Message 400 "Invalid vote value") else
  found ← await CommentFindById (findById comments commentId);
  match found with
  | None => respond (Message 404 "Comment not found")
  | Some comment =>
      let comment :=
        set_votes_comment (applyVote userId v (comment_votes comment)) comment in
      await CommentSave (saveComment commentId comment);;
      author ← await UserFindById (findById users (comment_author comment));
      match author with
      | Some u =>
          commentKarma ←
            await CommentAggregate (aggregateComments (comment_author comment));
          postKarma ←
            await PostAggregate (aggregatePosts (comment_author comment));
          await UserSave
            (saveUser (comment_author comment) (set_karma (postKarma + commentKarma) u))
      | None => ret tt
      end;;
      ret (VoteRecorded (upvotes (comment_votes comment))
                        (downvotes (comment_votes comment)))
  end.

Definition voteComment (userId commentId : ObjectId) (v : Z) :=
  handler 400 (voteCommentBody userId commentId v).

(** ** The comment listing *)

Local Set Warnings "-register-all".

(** A comment as the listing returns it: the document and its [replies]
    property.  The handler sets [replies] only when the query found
    replies, never to an empty array, so [[]] stands for the property
    left unset. *)
Inductive CommentNode :=
  | Node (id : ObjectId) (comment : Comment) (replies : list CommentNode).

Definition nodeDoc (n : CommentNode) : ObjectId * Comment :=
  match n with Node id c _ => (id, c) end.

Definition nodeReplies (n : CommentNode) : list CommentNode :=
  match n with Node _ _ rs => rs end.

(** [.sort({ createdAt: -1 })] and [.sort({ createdAt: 1 })]: the order
    two consecutive results are in. *)
Definition newestFirst (a b : ObjectId * Comment) : Prop :=
  createdAt b.2 ≤ createdAt a.2.

Definition oldestFirst (a b : ObjectId * Comment) : Prop :=
  createdAt a.2 ≤ createdAt b.2.

Global Instance newestFirst_dec : RelDecision newestFirst.
Proof. intros a b. unfold newestFirst. apply _. Defined.

Global Instance oldestFirst_dec : RelDecision oldestFirst.
Proof. intros a b. unfold oldestFirst. apply _. Defined.

(** [{ post: postId, parentId: null }] and [{ parentId: comment._id }] *)
Definition isRootOf (postId : ObjectId) (d : ObjectId * Comment) : Prop :=
  comment_post d.2 = postId ∧ parentId d.2 = None.

Definition isReplyTo (id : ObjectId) (d : ObjectId * Comment) : Prop :=
  parentId d.2 = Some id.

Global Instance isRootOf_dec postId d : Decision (isRootOf postId d).
Proof. unfold isRootOf. apply _. Defined.

Global Instance isReplyTo_dec id d : Decision (isReplyTo id d).
Proof. unfold isReplyTo. apply _. Defined.

(** [Comment.find(filter).sort(order).exec()]: the matching documents,
    sorted.  The order among comments with equal [createdAt] is that of
    a stable sort of the collection's enumeration. *)
Definition findRoots (postId : ObjectId) (db : DB) : list (ObjectId * Comment) :=
  merge_sort newestFirst (filter (isRootOf postId) (map_to_list (comments db))).

Definition findReplies (id : ObjectId) (db : DB) : list (ObjectId * Comment) :=
  merge_sort oldestFirst (filter (isReplyTo id) (map_to_list (comments db))).

(** [populateReplies]; [fuel] bounds the depth of the nested calls, and
    [None] is a run that needs a deeper nesting. *)
Fixpoint populateReplies (fuel : nat) (db : DB) (cs : list (ObjectId * Comment))
    : option (list CommentNode) :=
  match fuel with
  | O => None
  | S fuel =>
      mapM (λ d,
        let replies := findReplies d.1 db in
        if decide (0 < length replies)%nat then
          Node d.1 d.2 <$> populateReplies fuel db replies
        else Some (Node d.1 d.2 [])) cs
  end.

(** [router.get('/post/:postId')] of routes/comments.js, every query
    resolving: [res.json(comments)]. *)
Definition getComments (fuel : nat) (postId : ObjectId) (db : DB)
    : option (Response (list CommentNode)) :=
  forest ← populateReplies fuel db (findRoots postId db);
  Some (Json 200 forest).

(** ** Creating and deleting posts and comments *)

(** [router.delete('/:id')] of routes/comments.js. *)
Definition deleteCommentBody (userId id : ObjectId) : M unit (Response unit) :=
  found ← await CommentFindById (findById comments id);
  match found with
  | None => respond (Message 404 "Comment not found")
  | Some comment =>
      if decide (comment_author comment ≠ userId) then
        respond (Message 403 "Not authorized to delete this comment")
      else
        await CommentRemove (removeComment id);;
        post ← await PostFindById (findById posts (comment_post comment));
        match post with
        | Some post =>
            await PostSave
              (savePost (comment_post comment)
                 (set_commentCount (Z.max 0 (commentCount post - 1)) post))
        | None => ret tt
        end;;
        ret (Message 200 "Comment deleted successfully")
  end.

Definition deleteComment (userId id : ObjectId) :=
  handler 500 (deleteCommentBody userId id).

(** [router.post('/')] of routes/comments.js.  [newId] is the [_id] the
    constructor generates and [now] the creation time; the new comment
    has no votes.  The final [populate] only reads. *)
Definition createCommentBody (newId : ObjectId) (now : Z)
    (userId postId : ObjectId) (parent : option ObjectId)
    : M (ObjectId * Comment) (Response (ObjectId * Comment)) :=
  found ← await PostFindById (findById posts postId);
  match found with
  | None => respond (Message 404 "Post not found")
  | Some post =>
      match parent with
      | Some pid =>
          parentComment ← await CommentFindById (findById comments pid);
          match parentComment with
          | None => respond (Message 404 "Parent comment not found")
          | Some _ => ret tt
          end
      | None => ret tt
      end;;
      let comment := mkComment userId postId parent now fresh in
      await CommentSave (saveComment newId comment);;
      await PostSave (savePost postId (set_commentCount (commentCount post + 1) post));;
      ret (Json 201 (newId, comment))
  end.

Definition createComment (newId : ObjectId) (now : Z)
    (userId postId : ObjectId) (parent : option ObjectId) :=
  handler 400 (createCommentBody newId now userId postId parent).

(** [router.delete('/:id')] of routes/posts.js. *)
Definition deletePostBody (userId id : ObjectId) : M unit (Response unit) :=
  found ← await PostFindById (findById posts id);
  match found with
  | None => respond (Message 404 "Post not found")
  | Some post =>
      if decide (post_author post ≠ userId) then
        respond (Message 403 "Not authorized to delete this post")
      else
        await CommentDeleteMany (deleteManyComments id);;
        await PostRemove (removePost id);;
        ret (Message 200 "Post deleted successfully")
  end.

Definition deletePost (userId id : ObjectId) :=
  handler 500 (deletePostBody userId id).

(** [router.post('/')] of routes/posts.js.  [communityFound] is whether
    [Community.findOne] found the community; the new post has no votes
    and no comments. *)
Definition createPostBody (newId userId : ObjectId) (communityFound : bool)
    : M (ObjectId * Post) (Response (ObjectId * Post)) :=
  if negb communityFound then respond (Message 404 "Community not found") else
  let post := mkPost userId 0 fresh in
  await PostSave (savePost newId post);;
  ret (Json 201 (newId, post)).

Definition createPost (newId userId : ObjectId) (communityFound : bool) :=
  handler 400 (createPostBody newId userId communityFound).

(** ** Requests and reachable stores *)

(** The requests that write posts or comments. *)
Inductive Request :=
  | VotePost (u pid : ObjectId) (v : Z)
  | VoteComment (u cid : ObjectId) (v : Z)
  | CreatePost (newId u : ObjectId) (communityFound : bool)
  | CreateComment (newId : ObjectId) (now : Z) (u pid : ObjectId)
      (parent : option ObjectId)
  | DeleteComment (u cid : ObjectId)
  | DeletePost (u pid : ObjectId).

Definition serve (r : Request) (flt : option (Await * string)) (db : DB) : DB :=
  match r with
  | VotePost u pid v => snd (votePost u pid v flt db)
  | VoteComment u cid v => snd (voteComment u cid v flt db)
  | CreatePost newId u found => snd (createPost newId u found flt db)
  | CreateComment newId now u pid parent =>
      snd (createComment newId now u pid parent flt db)
  | DeleteComment u cid => snd (deleteComment u cid flt db)
  | DeletePost u pid => snd (deletePost u pid flt db)
  end.

(** The stores the handlers produce from the empty store, one request
    after the other. *)
Inductive reachable : DB → Prop :=
  | reach_empty : reachable (mkDB ∅ ∅ ∅)
  | reach_serve db r flt : reachable db → reachable (serve r flt db).

(** Successive requests to one vote handler, every store call resolving. *)
Fixpoint castAll (cast : ObjectId → Z → DB → Response unit * DB)
    (ops : list (ObjectId * Z)) (db : DB) : DB :=
  match ops with
  | [] => db
  | (u, v) :: ops => castAll cast ops (snd (cast u v db))
  end.

(** * The vocabulary of the properties *)

(** ** Votes, counters and karma *)

(** The vote stored for [u] in a [voters] array, [0] when there is no
    entry. *)
Definition recorded (u : ObjectId) (vs : list Voter) : Z :=
  match findVoter u vs with
  | Some (_, e) => vote e
  | None => 0
  end.

(** Number of entries of a [voters] array with vote [v]. *)
Definition countVotes (v : Z) (vs : list Voter) : Z :=
  Z.of_nat (length (filter (λ e, vote e = v) vs)).

(** The data-model invariant of a votable document: one entry per user,
    entries are up or down votes, and the counters count them. *)
Record consistent (t : Votes) : Prop := {
  cons_nodup : NoDup (user <$> voters t);
  cons_votes : Forall (λ e, vote e = 1 ∨ vote e = -1) (voters t);
  cons_up : upvotes t = countVotes 1 (voters t);
  cons_down : downvotes t = countVotes (-1) (voters t)
}.

(** Every post and every comment of the store is consistent. *)
Definition votesConsistent (db : DB) : Prop :=
  map_Forall (λ _ p, consistent (post_votes p)) (posts db) ∧
  map_Forall (λ _ c, consistent (comment_votes c)) (comments db).

(** The counters are non-negative and the vote stored for [u], if any,
    is counted in them. *)
Definition reflected (u : ObjectId) (t : Votes) : Prop :=
  0 ≤ upvotes t ∧ 0 ≤ downvotes t ∧
  (recorded u (voters t) = 1 → 1 ≤ upvotes t) ∧
  (recorded u (voters t) = -1 → 1 ≤ downvotes t).

(** One step of [lastVote]: an accepted cast of [u] replaces the value
    remembered so far. *)
Definition lastStep (u : ObjectId) (acc : Z) (op : ObjectId * Z) : Z :=
  if decide (op.1 = u) then if validVote op.2 then op.2 else acc else acc.

(** The value of the last accepted cast of user [u] in [ops], [0] when
    there is none (a cast with an invalid value is rejected and records
    nothing). *)
Definition lastVote (u : ObjectId) (ops : list (ObjectId * Z)) : Z :=
  fold_left (lastStep u) ops 0.

(** The users that appear in [ops] and whose last accepted cast is [v]. *)
Definition usersVoting (v : Z) (ops : list (ObjectId * Z)) : list ObjectId :=
  filter (λ u, lastVote u ops = v) (remove_dups (ops.*1)).

(** The sum of [upvotes - downvotes] over the posts of [a]. *)
Definition postsKarma (a : ObjectId) (db : DB) : Z :=
  aggregate post_author post_votes a (posts db).

(** The same sum over the comments of [a]. *)
Definition commentsKarma (a : ObjectId) (db : DB) : Z :=
  aggregate comment_author comment_votes a (comments db).

(** The sum of [upvotes - downvotes] over every post and every comment
    of author [a]. *)
Definition totalKarma (a : ObjectId) (db : DB) : Z :=
  postsKarma a db + commentsKarma a db.

(** The post as a vote saves it. *)
Definition votedPost (u : ObjectId) (v : Z) (p : Post) : Post :=
  set_votes_post (applyVote u v (post_votes p)) p.

(** The same for a comment. *)
Definition votedComment (u : ObjectId) (v : Z) (c : Comment) : Comment :=
  set_votes_comment (applyVote u v (comment_votes c)) c.

(** The store once the voted post is saved. *)
Definition savedPost (pid u : ObjectId) (v : Z) (p : Post) (db : DB) : DB :=
  set_posts (<[pid := votedPost u v p]> (posts db)) db.

(** The store once the voted comment is saved. *)
Definition savedComment (cid u : ObjectId) (v : Z) (c : Comment) (db : DB) : DB :=
  set_comments (<[cid := votedComment u v c]> (comments db)) db.

(** [user.karma = k; await user.save()] when the author [a] is found. *)
Definition storeKarma (a : ObjectId) (k : Z) (db : DB) : DB :=
  match users db !! a with
  | Some usr => set_users (<[a := set_karma k usr]> (users db)) db
  | None => db
  end.

(** ** Failures *)

(** The fault [flt] makes the call [a] reject. *)
Definition rejects (a : Await) (flt : option (Await * string)) : Prop :=
  ∃ msg, flt = Some (a, msg).

(** The store calls of the statements under "Update user karma". *)
Definition karmaCallsPost : list Await := [UserFindById; PostAggregate; UserSave].

Definition karmaCallsComment : list Await :=
  [UserFindById; CommentAggregate; PostAggregate; UserSave].

(** The answer [{ message: 'Vote recorded successfully', ... }]. *)
Definition isSuccess (r : Response unit) : Prop :=
  ∃ up down, r = VoteRecorded up down.

(** ** Threads *)

(** A node listed with exactly the comments that reply to it, oldest
    first, and so on below it. *)
Inductive thread (db : DB) : CommentNode → Prop :=
  | thread_node id c rs :
      StronglySorted oldestFirst (nodeDoc <$> rs) →
      nodeDoc <$> rs ≡ₚ filter (isReplyTo id) (map_to_list (comments db)) →
      Forall (thread db) rs →
      thread db (Node id c rs).

(** No comment is its own ancestor: [h] decreases from a comment to its
    replies. *)
Definition acyclic (h : ObjectId → nat) (db : DB) : Prop :=
  map_Forall (λ id c, match parentId c with
                      | Some p => (h id < h p)%nat
                      | None => True
                      end) (comments db).

Global Instance acyclic_dec h db : Decision (acyclic h db).
Proof. unfold acyclic. apply map_Forall_dec. intros id c. destruct (parentId c); apply _. Defined.

(** Every stored comment belongs to a stored post. *)
Definition refIntegrity (db : DB) : Prop :=
  map_Forall (λ _ c, is_Some (posts db !! comment_post c)) (comments db).

Global Instance refIntegrity_dec db : Decision (refIntegrity db).
Proof. unfold refIntegrity. apply _. Defined.

(** ** Concrete stores *)

(** A post and a comment of user 1 without votes. *)
Definition freshDB : DB :=
  mkDB {[ 10%nat := mkPost 1%nat 0 fresh ]}
       {[ 20%nat := mkComment 1%nat 10%nat None 5 fresh ]}
       {[ 1%nat := mkUser 0 ]}.

(** User 1 up-votes, then down-votes; user 2 up-votes. *)
Definition scenario : list (ObjectId * Z) := [(1%nat, 1); (1%nat, -1); (2%nat, 1)].

(** User 1 wrote post 10 (no votes yet) and comment 20 (one up vote by
    user 2); the stored karma 1 is the sum over both. *)
Definition karmaDB : DB :=
  mkDB {[ 10%nat := mkPost 1%nat 0 (mkVotes 0 0 []) ]}
       {[ 20%nat := mkComment 1%nat 10%nat None 5 (mkVotes 1 0 [mkVoter 2%nat 1]) ]}
       {[ 1%nat := mkUser 1 ]}.

(** A post with [upvotes = 0] whose [voters] array still holds an up
    vote of user 2. *)
Definition driftedDB : DB :=
  mkDB {[ 10%nat := mkPost 1%nat 0 (mkVotes 0 0 [mkVoter 2%nat 1]) ]} ∅
       {[ 1%nat := mkUser 0 ]}.

(** Post 7 with root comments 11, 12, 13 created at 1 < 2 < 3 and,
    under comment 11, replies 14, 15 created at 4 < 5. *)
Definition threadDB : DB :=
  mkDB {[ 7%nat := mkPost 1%nat 5 fresh ]}
       (<[ 11%nat := mkComment 1%nat 7%nat None 1 fresh ]>
        (<[ 12%nat := mkComment 1%nat 7%nat None 2 fresh ]>
         (<[ 13%nat := mkComment 1%nat 7%nat None 3 fresh ]>
          (<[ 15%nat := mkComment 1%nat 7%nat (Some 11%nat) 5 fresh ]>
           {[ 14%nat := mkComment 1%nat 7%nat (Some 11%nat) 4 fresh ]}))))
       {[ 1%nat := mkUser 0 ]}.

(** In [threadDB] comment 11 has replies, the other comments none. *)
Definition threadHeight (id : ObjectId) : nat :=
  if decide (id = 11%nat) then 1%nat else 0%nat.

(** * Further vocabulary *)

(** [1] when [a = b], else [0]: what a vote of value [a] adds to the
    counter of the votes of value [b]. *)
Definition counts (a b : Z) : Z := if decide (a = b) then 1 else 0.


(** The parent given to a new comment, if any, is a stored comment. *)
Definition parentStored (parent : option ObjectId) (db : DB) : Prop :=
  match parent with
  | Some par => is_Some (comments db !! par)
  | None => True
  end.

(** The store after a comment [c] was saved under [newId] and the count
    of post [pid], loaded as [p], was incremented. *)
Definition withNewComment (newId : ObjectId) (c : Comment) (pid : ObjectId)
    (p : Post) (db : DB) : DB :=
  mkDB (<[pid := set_commentCount (commentCount p + 1) p]> (posts db))
       (<[newId := c]> (comments db)) (users db).

(** All the comments of a listing, nodes before their replies. *)
Fixpoint nodeDocs (n : CommentNode) : list (ObjectId * Comment) :=
  match n with
  | Node id c rs => (id, c) :: concat (nodeDocs <$> rs)
  end.

Definition forestDocs (forest : list CommentNode) : list (ObjectId * Comment) :=
  concat (nodeDocs <$> forest).






(** * Communities *)

(** models/Community.js, with the fields the routes of
    routes/communities.js read or write ([banner] and [icon] are never
    touched).  A rule is a title with a description.  The collection is
    keyed by the [name] as it is stored, which the schema makes
    unique. *)
Record Community := mkCommunity {
  description : option string;
  creator : ObjectId;
  moderators : list ObjectId;
  members : list ObjectId;
  memberCount : Z;
  rules : list (string * string)
}.

Definition set_members (ms : list ObjectId) (n : Z) (c : Community) : Community :=
  mkCommunity (description c) (creator c) (moderators c) ms n (rules c).

Definition set_moderators (ms : list ObjectId) (c : Community) : Community :=
  mkCommunity (description c) (creator c) ms (members c) (memberCount c) (rules c).

Definition set_description (d : option string) (c : Community) : Community :=
  mkCommunity d (creator c) (moderators c) (members c) (memberCount c) (rules c).

Definition set_rules (r : list (string * string)) (c : Community) : Community :=
  mkCommunity (description c) (creator c) (moderators c) (members c) (memberCount c) r.

(** Whether routes/communities.js binds the identifier [mongoose]: the
    module requires express, the Community and Post models and the
    auth middleware, and nothing else. *)
Definition mongooseBound : bool := false.

(** [await mongoose.model('User').findById(userId)] in that module:
    the error message when evaluating [mongoose] throws a
    ReferenceError, else what the lookup finds. *)
Definition findUserById (us : gmap nat User) (userId : ObjectId)
    : string + option User :=
  if mongooseBound then inr (us !! userId)
  else inl "mongoose is not defined".

(** The requests that write a community document. *)
Inductive CommunityRequest :=
  | Join (userId : ObjectId)
  | Leave (userId : ObjectId)
  | AddModerator (caller userId : ObjectId)
  | RemoveModerator (caller userId : ObjectId)
  | Update (caller : ObjectId) (newDescription : option string)
      (newRules : option (list (string * string))).

Section CommunityHandlers.

(** What the handlers take from Mongoose and the schema.
    [storedName name] is a name as the setters of the schema's [name]
    ([trim], [lowercase]) store it; Mongoose applies them to the [name]
    of a [findOne] filter as well.  [trimmed] is the [trim] setter of
    [description].  [populated us c] is the community [c] as [res.json]
    sends it after the [populate] calls, which read the users [us]. *)
Context (storedName trimmed : string → string).
Context (View : Type) (populated : gmap nat User → Community → View).

(** [await Community.findOne({ name: req.params.name })] *)
Definition findCommunity (name : string) (cs : gmap string Community)
    : option Community :=
  cs !! storedName name.

(** [await community.save()]: the document keeps its stored name. *)
Definition saveCommunity (name : string) (c : Community)
    (cs : gmap string Community) : gmap string Community :=
  <[storedName name := c]> cs.

(** [router.post('/:name/join')], every store call resolving.
    [community.members.includes(req.user._id)] is membership of the id
    in the array. *)
Definition joinCommunity (userId : ObjectId) (name : string)
    (cs : gmap string Community) : Response View * gmap string Community :=
  match findCommunity name cs with
  | None => (Message 404 "Community not found", cs)
  | Some community =>
      if decide (userId ∈ members community) then
        (Message 400 "Already a member of this community", cs)
      else
        let community :=
          set_members (members community ++ [userId]) (memberCount community + 1)
            community in
        (Message 200 "Successfully joined community", saveCommunity name community cs)
  end.

(** [router.post('/:name/leave')], every store call resolving. *)
Definition leaveCommunity (userId : ObjectId) (name : string)
    (cs : gmap string Community) : Response View * gmap string Community :=
  match findCommunity name cs with
  | None => (Message 404 "Community not found", cs)
  | Some community =>
      if decide (userId ∉ members community) then
        (Message 400 "Not a member of this community", cs)
      else
        let community :=
          set_members (filter (λ member, member ≠ userId) (members community))
            (Z.max 0 (memberCount community - 1)) community in
        (Message 200 "Successfully left community", saveCommunity name community cs)
  end.

(** [router.delete('/:name/moderators/:userId')], every store call
    resolving; [caller] is [req.user._id]. *)
Definition removeModerator (caller : ObjectId) (name : string) (userId : ObjectId)
    (us : gmap nat User) (cs : gmap string Community)
    : Response View * gmap string Community :=
  match findCommunity name cs with
  | None => (Message 404 "Community not found", cs)
  | Some community =>
      if decide (creator community ≠ caller) then
        (Message 403 "Only the community creator can remove moderators", cs)
      else if decide (creator community = userId) then
        (Message 400 "Cannot remove the community creator from moderators", cs)
      else
        let community :=
          set_moderators (filter (λ moderator, moderator ≠ userId) (moderators community))
            community in
        (Json 200 (populated us community), saveCommunity name community cs)
  end.

(** [router.post('/:name/moderators')], every store call resolving; an
    error thrown in the [try] block is answered by its [catch]. *)
Definition addModerator (caller : ObjectId) (name : string) (userId : ObjectId)
    (us : gmap nat User) (cs : gmap string Community)
    : Response View * gmap string Community :=
  match findCommunity name cs with
  | None => (Message 404 "Community not found", cs)
  | Some community =>
      if decide (creator community ≠ caller) then
        (Message 403 "Only the community creator can add moderators", cs)
      else
        match findUserById us userId with
        | inl message => (Message 400 message, cs)
        | inr None => (Message 404 "User not found", cs)
        | inr (Some _) =>
            if decide (userId ∈ moderators community) then
              (Message 400 "User is already a moderator", cs)
            else
              let community :=
                set_moderators (moderators community ++ [userId]) community in
              let community :=
                if decide (userId ∉ members community) then
                  set_members (members community ++ [userId])
                    (memberCount community + 1) community
                else community in
              (Json 200 (populated us community), saveCommunity name community cs)
        end
  end.

(** [router.put('/:name')], every store call resolving; [None] is a
    body field that is [undefined]. *)
Definition updateCommunity (caller : ObjectId) (name : string)
    (newDescription : option string) (newRules : option (list (string * string)))
    (us : gmap nat User) (cs : gmap string Community)
    : Response View * gmap string Community :=
  match findCommunity name cs with
  | None => (Message 404 "Community not found", cs)
  | Some community =>
      if decide (caller ∉ moderators community) then
        (Message 403 "Not authorized to update this community", cs)
      else
        let community :=
          match newDescription with
          | Some d => set_description (Some (trimmed d)) community
          | None => community
          end in
        let community :=
          match newRules with
          | Some r => set_rules r community
          | None => community
          end in
        (Json 200 (populated us community), saveCommunity name community cs)
  end.

Definition serveCommunity (r : CommunityRequest) (name : string)
    (us : gmap nat User) (cs : gmap string Community)
    : Response View * gmap string Community :=
  match r with
  | Join u => joinCommunity u name cs
  | Leave u => leaveCommunity u name cs
  | AddModerator caller u => addModerator caller name u us cs
  | RemoveModerator caller u => removeModerator caller name u us cs
  | Update caller d r => updateCommunity caller name d r us cs
  end.

End CommunityHandlers.

(** The members are listed once each and counted by [memberCount], and
    the creator is a moderator. *)
Record communityOK (c : Community) : Prop := {
  ok_members : NoDup (members c);
  ok_count : memberCount c = Z.of_nat (length (members c));
  ok_creator : creator c ∈ moderators c
}.

(** The setters on names written in ASCII: upper-case letters become
    lower-case, blanks at both ends are dropped. *)
Definition lowerAscii (a : Ascii.ascii) : Ascii.ascii :=
  let n := Ascii.nat_of_ascii a in
  if ((65 <=? n) && (n <=? 90))%nat then Ascii.ascii_of_nat (n + 32) else a.

Fixpoint lowerCase (s : string) : string :=
  match s with
  | EmptyString => EmptyString
  | String a s => String (lowerAscii a) (lowerCase s)
  end.

Definition isBlank (a : Ascii.ascii) : bool :=
  let n := Ascii.nat_of_ascii a in
  ((n =? 32) || ((9 <=? n) && (n <=? 13)))%nat.

Fixpoint trimStart (s : string) : string :=
  match s with
  | EmptyString => EmptyString
  | String a s' => if isBlank a then trimStart s' else s
  end.

Definition trimBlanks (s : string) : string :=
  String.rev (trimStart (String.rev (trimStart s))).

Definition asciiStoredName (name : string) : string := lowerCase (trimBlanks name).

(** A view of a community with the user documents of its moderators. *)
Definition withModerators (us : gmap nat User) (c : Community)
    : Community * list (option User) :=
  (c, (λ m, us !! m) <$> moderators c).

(** ** Further concrete stores *)

(** The post and the comment of [karmaDB]. *)
Definition karmaPost : Post := mkPost 1%nat 0 (mkVotes 0 0 []).
Definition karmaComment : Comment :=
  mkComment 1%nat 10%nat None 5 (mkVotes 1 0 [mkVoter 2%nat 1]).

(** [karmaDB] without its user. *)
Definition authorlessDB : DB :=
  mkDB {[ 10%nat := karmaPost ]} {[ 20%nat := karmaComment ]} ∅.

(** A community created by user 1, with members 1 and 2. *)
Definition rocqCommunity : Community :=
  mkCommunity None 1%nat [1%nat] [1%nat; 2%nat] 2 [].
Definition communityDB : gmap string Community := {[ "rocq" := rocqCommunity ]}.

(** * Proofs *)

(** ** The vote block *)

Lemma validVote_spec v : validVote v = true ↔ v = 1 ∨ v = 0 ∨ v = -1.
Proof.
  unfold validVote.
  rewrite !orb_true_iff, !bool_decide_eq_true. tauto.
Qed.

Lemma findVoter_Some u vs i e :
  findVoter u vs = Some (i, e) →
  ∃ l1 l2, vs = l1 ++ e :: l2 ∧ length l1 = i ∧ user e = u ∧
           Forall (λ x, user x ≠ u) l1.
Proof.
  unfold findVoter. intros [Hi [He Hmin]]%list_find_Some.
  exists (take i vs), (drop (S i) vs). split_and!.
  - by rewrite take_drop_middle.
  - apply length_take_le. apply lookup_lt_Some in Hi. lia.
  - done.
  - apply Forall_forall. intros x [j Hj]%list_elem_of_lookup.
    apply lookup_take_Some in Hj as [Hj Hlt]. eauto.
Qed.

Lemma findVoter_None u vs :
  findVoter u vs = None ↔ u ∉ user <$> vs.
Proof.
  unfold findVoter. rewrite list_find_None, Forall_forall, list_elem_of_fmap.
  split.
  - intros H (e & -> & He). by apply (H e).
  - intros H e He Hu. apply H. eauto.
Qed.

Lemma findVoter_middle u l1 e l2 :
  Forall (λ x, user x ≠ u) l1 → user e = u →
  findVoter u (l1 ++ e :: l2) = Some (length l1, e).
Proof.
  intros H1 He. unfold findVoter. apply list_find_Some. split_and!.
  - by rewrite list_lookup_middle.
  - done.
  - intros j y Hj Hlt. rewrite lookup_app_l in Hj by done.
    rewrite Forall_forall in H1. apply H1.
    apply list_elem_of_lookup. eauto.
Qed.

Lemma findVoter_other u u' l1 e e' l2 :
  u' ≠ u → user e = u → user e' = u →
  recorded u' (l1 ++ e :: l2) = recorded u' (l1 ++ e' :: l2).
Proof.
  intros Hne He He'. unfold recorded, findVoter.
  induction l1 as [|x l1 IH]; simpl.
  - rewrite !decide_False by congruence. done.
  - destruct (decide (user x = u')); [done|].
    destruct (list_find _ (l1 ++ e :: l2)) as [[]|],
             (list_find _ (l1 ++ e' :: l2)) as [[]|]; simpl in *; done.
Qed.

Lemma recorded_delete_other u u' l1 e l2 :
  u' ≠ u → user e = u →
  recorded u' (l1 ++ e :: l2) = recorded u' (l1 ++ l2).
Proof.
  intros Hne He. unfold recorded, findVoter.
  induction l1 as [|x l1 IH]; simpl.
  - rewrite decide_False by congruence.
    destruct (list_find _ l2) as [[]|]; done.
  - destruct (decide (user x = u')); [done|].
    destruct (list_find _ (l1 ++ e :: l2)) as [[]|],
             (list_find _ (l1 ++ l2)) as [[]|]; simpl in *; done.
Qed.

Lemma recorded_snoc_other u u' vs v :
  u' ≠ u → recorded u' (vs ++ [mkVoter u v]) = recorded u' vs.
Proof.
  intros Hne. unfold recorded, findVoter.
  induction vs as [|x l1 IH]; simpl.
  - rewrite decide_False by congruence. done.
  - destruct (decide (user x = u')); [done|].
    destruct (list_find _ (l1 ++ _)) as [[]|],
             (list_find _ l1) as [[]|]; simpl in *; done.
Qed.

Lemma recorded_None u vs : u ∉ user <$> vs → recorded u vs = 0.
Proof. intros H%findVoter_None. unfold recorded. by rewrite H. Qed.

Lemma recorded_middle u l1 e l2 :
  Forall (λ x, user x ≠ u) l1 → user e = u →
  recorded u (l1 ++ e :: l2) = vote e.
Proof.
  intros. unfold recorded. by rewrite findVoter_middle.
Qed.

Lemma countVotes_app v l1 l2 :
  countVotes v (l1 ++ l2) = countVotes v l1 + countVotes v l2.
Proof. unfold countVotes. rewrite filter_app, length_app. lia. Qed.

Lemma countVotes_cons v e l :
  countVotes v (e :: l) = (if decide (vote e = v) then 1 else 0) + countVotes v l.
Proof.
  unfold countVotes. rewrite filter_cons.
  destruct (decide (vote e = v)); simpl; lia.
Qed.

Lemma countVotes_nil v : countVotes v [] = 0.
Proof. done. Qed.

Lemma countVotes_nonneg v l : 0 ≤ countVotes v l.
Proof. unfold countVotes. lia. Qed.

Lemma voters_removeVote x t : voters (removeVote x t) = voters t.
Proof. unfold removeVote. repeat case_decide; done. Qed.

Lemma applyVote_found u v t l1 e l2 :
  voters t = l1 ++ e :: l2 → Forall (λ x, user x ≠ u) l1 → user e = u →
  applyVote u v t =
    if decide (v = 0) then set_voters (l1 ++ l2) (removeVote (vote e) t)
    else addVote v (set_voters (l1 ++ set_vote v e :: l2) (removeVote (vote e) t)).
Proof.
  intros Hvs Hl1 He. unfold applyVote.
  rewrite Hvs, findVoter_middle by done.
  rewrite voters_removeVote, Hvs.
  case_decide.
  - by rewrite delete_middle.
  - do 2 f_equal. rewrite alter_app_r_alt by done.
    by rewrite Nat.sub_diag.
Qed.

Lemma applyVote_absent u v t :
  u ∉ user <$> voters t →
  applyVote u v t =
    if decide (v ≠ 0) then addVote v (set_voters (voters t ++ [mkVoter u v]) t)
    else t.
Proof. intros H%findVoter_None. unfold applyVote. by rewrite H. Qed.

(** The entry of [u] in a [voters] array, when there is one. *)
Lemma voters_split u vs :
  u ∈ user <$> vs →
  ∃ l1 e l2, vs = l1 ++ e :: l2 ∧ Forall (λ x, user x ≠ u) l1 ∧ user e = u.
Proof.
  intros Hin. destruct (findVoter u vs) as [[i e]|] eqn:Hf.
  - apply findVoter_Some in Hf as (l1 & l2 & -> & _ & He & Hl1).
    by exists l1, e, l2.
  - apply findVoter_None in Hf. done.
Qed.

Lemma NoDup_users_middle u l1 (e : Voter) l2 :
  NoDup (user <$> (l1 ++ e :: l2)) → user e = u →
  (u ∉ user <$> (l1 ++ l2)) ∧ NoDup (user <$> (l1 ++ l2)).
Proof.
  rewrite !fmap_app, fmap_cons. intros Hnd <-.
  apply NoDup_app in Hnd as (Hn1 & Hdisj & Hn2).
  apply NoDup_cons in Hn2 as [Hnot Hn2]. split.
  - rewrite elem_of_app. intros [H1|H2]; [|done].
    apply (Hdisj _ H1). left.
  - apply NoDup_app. split_and!; [done| |done].
    intros x Hx Hx2. apply (Hdisj x Hx). by right.
Qed.

Lemma applyVote_consistent u v t :
  validVote v = true → consistent t → consistent (applyVote u v t).
Proof.
  intros Hv%validVote_spec [Hnd Hvs Hup Hdown].
  destruct (decide (u ∈ user <$> voters t)) as [Hin|Hnin].
  - destruct (voters_split _ _ Hin) as (l1 & e & l2 & Hsplit & Hl1 & He).
    rewrite (applyVote_found u v t l1 e l2) by done.
    rewrite Hsplit in Hnd, Hvs, Hup, Hdown.
    destruct (NoDup_users_middle _ _ _ _ Hnd He) as [Hnot Hnd'].
    apply Forall_app in Hvs as [Hvs1 Hvs2].
    apply Forall_cons in Hvs2 as [Hve Hvs2].
    rewrite countVotes_app, countVotes_cons in Hup, Hdown.
    destruct (decide (v = 0)) as [Hz|Hz].
    + split; simpl.
      * done.
      * apply Forall_app. done.
      * rewrite countVotes_app. unfold removeVote.
        repeat case_decide; simpl; lia.
      * rewrite countVotes_app. unfold removeVote.
        repeat case_decide; simpl; lia.
    + assert (Hnd2 : NoDup (user <$> (l1 ++ set_vote v e :: l2))).
      { by rewrite fmap_app, fmap_cons in *. }
      assert (Hfa : Forall (λ e, vote e = 1 ∨ vote e = -1) (l1 ++ set_vote v e :: l2)).
      { apply Forall_app. split; [done|]. apply Forall_cons. split; [|done].
        simpl. lia. }
      unfold addVote, removeVote.
      split; repeat case_decide; simpl; try done;
        rewrite countVotes_app, countVotes_cons; simpl;
        repeat case_decide; lia.
  - rewrite applyVote_absent by done.
    destruct (decide (v ≠ 0)) as [Hz|Hz]; [|by split].
    assert (Hnd2 : NoDup (user <$> (voters t ++ [mkVoter u v]))).
    { rewrite fmap_app. apply NoDup_app. split_and!; [done| |].
      - simpl. intros x Hx ->%list_elem_of_singleton. done.
      - simpl. apply NoDup_singleton. }
    assert (Hfa : Forall (λ e, vote e = 1 ∨ vote e = -1) (voters t ++ [mkVoter u v])).
    { apply Forall_app. split; [done|]. apply Forall_singleton. simpl. lia. }
    unfold addVote.
    split; repeat case_decide; simpl; try done;
      rewrite countVotes_app, countVotes_cons, countVotes_nil; simpl;
      repeat case_decide; lia.
Qed.

Lemma consistent_fresh : consistent fresh.
Proof. split; simpl; try done. apply NoDup_nil_2. Qed.

Lemma voters_addVote v t : voters (addVote v t) = voters t.
Proof. unfold addVote. repeat case_decide; done. Qed.

(** After a cast the array stores the value cast for that user, and the
    entries of the other users are as before. *)
Lemma applyVote_recorded u v t u' :
  NoDup (user <$> voters t) →
  recorded u' (voters (applyVote u v t)) =
    if decide (u' = u) then v else recorded u' (voters t).
Proof.
  intros Hnd.
  destruct (decide (u ∈ user <$> voters t)) as [Hin|Hnin].
  - destruct (voters_split _ _ Hin) as (l1 & e & l2 & Hsplit & Hl1 & He).
    rewrite (applyVote_found u v t l1 e l2) by done.
    rewrite Hsplit in Hnd |- *.
    destruct (NoDup_users_middle _ _ _ _ Hnd He) as [Hnot Hnd'].
    destruct (decide (v = 0)) as [->|Hz]; simpl.
    + case_decide as Hu; subst.
      * by apply recorded_None.
      * symmetry. by eapply recorded_delete_other.
    + rewrite voters_addVote. simpl.
      case_decide as Hu.
      * subst u'. by rewrite recorded_middle.
      * by apply (findVoter_other u u').
  - rewrite applyVote_absent by done.
    destruct (decide (v ≠ 0)) as [Hz|Hz].
    + rewrite voters_addVote. simpl. case_decide as Hu.
      * subst u'. apply findVoter_None in Hnin.
        unfold recorded, findVoter in *.
        rewrite list_find_app_r by done. simpl.
        by rewrite decide_True.
      * by apply recorded_snoc_other.
    + case_decide; [|done]. subst. rewrite recorded_None by done. lia.
Qed.

(** ** What a sequence of casts records *)

Lemma lastVote_unfold u ops : lastVote u ops = fold_left (lastStep u) ops 0.
Proof. done. Qed.

Lemma fold_lastStep_elem u ops acc :
  fold_left (lastStep u) ops acc = acc ∨ u ∈ ops.*1.
Proof.
  revert acc. induction ops as [|[u' v] ops IH]; intros acc; simpl; [by left|].
  destruct (IH (lastStep u acc (u', v))) as [->|Hin].
  - unfold lastStep; simpl. destruct (decide (u' = u)) as [->|]; [|by left].
    right. left.
  - right. by right.
Qed.

Lemma lastVote_elem u ops : lastVote u ops ≠ 0 → u ∈ ops.*1.
Proof.
  intros Hne. destruct (fold_lastStep_elem u ops 0); [|done].
  by rewrite lastVote_unfold in Hne.
Qed.

Lemma recorded_elem vs e :
  NoDup (user <$> vs) → e ∈ vs → recorded (user e) vs = vote e.
Proof.
  intros Hnd (l1 & l2 & ->)%list_elem_of_split.
  apply recorded_middle; [|done].
  rewrite fmap_app, fmap_cons in Hnd.
  apply NoDup_app in Hnd as (_ & Hdisj & _).
  apply Forall_forall. intros x Hx Heq.
  apply (Hdisj (user x)).
  - apply list_elem_of_fmap. eauto.
  - rewrite Heq. left.
Qed.

Lemma recorded_inv u vs :
  recorded u vs ≠ 0 → ∃ e, e ∈ vs ∧ user e = u ∧ vote e = recorded u vs.
Proof.
  unfold recorded. destruct (findVoter u vs) as [[i e]|] eqn:Hf; [|done].
  intros _. apply findVoter_Some in Hf as (l1 & l2 & -> & _ & He & _).
  exists e. split_and!; [|done..].
  apply elem_of_app. right. left.
Qed.

(** In a consistent document the number of entries with a non-zero vote
    [v] is the number of users whose last accepted cast is [v]. *)
Lemma countVotes_usersVoting t ops v :
  consistent t → v ≠ 0 →
  (∀ u, recorded u (voters t) = lastVote u ops) →
  countVotes v (voters t) = Z.of_nat (length (usersVoting v ops)).
Proof.
  intros [Hnd _ _ _] Hv Hrec. unfold countVotes. f_equal.
  rewrite <- (length_fmap user).
  apply Permutation_length, NoDup_Permutation.
  - eapply sublist_NoDup; [exact Hnd|apply fmap_sublist, sublist_filter].
  - apply NoDup_filter, NoDup_remove_dups.
  - intros u. unfold usersVoting.
    rewrite list_elem_of_fmap, list_elem_of_filter, elem_of_remove_dups.
    split.
    + intros (e & -> & [He Hin]%list_elem_of_filter).
      assert (lastVote (user e) ops = v) as Hl.
      { rewrite <- Hrec. rewrite recorded_elem by done. done. }
      split; [done|]. apply lastVote_elem. congruence.
    + intros [Hl _]. rewrite <- Hrec in Hl.
      destruct (recorded_inv u (voters t)) as (e & Hin & He & Hve); [congruence|].
      exists e. split; [done|]. apply list_elem_of_filter. split; [congruence|done].
Qed.

(** ** Runs of the vote handlers *)

Ltac run_handler :=
  unfold handler, mbind, mret, handler_bind, handler_ret, bind, ret, respond,
    await, findById, savePost, saveComment, saveUser, aggregatePosts,
    aggregateComments; simpl.

Lemma votePost_run u pid v p db :
  validVote v = true → posts db !! pid = Some p →
  votePost u pid v None db =
    (VoteRecorded (upvotes (post_votes (votedPost u v p)))
                  (downvotes (post_votes (votedPost u v p))),
     let db1 := savedPost pid u v p db in
     storeKarma (post_author p) (postsKarma (post_author p) db1) db1).
Proof.
  intros Hv Hp. unfold votePost, votePostBody. rewrite Hv. run_handler.
  rewrite Hp. simpl. unfold storeKarma, savedPost. simpl.
  destruct (users db !! post_author p); reflexivity.
Qed.

Lemma voteComment_run u cid v c db :
  validVote v = true → comments db !! cid = Some c →
  voteComment u cid v None db =
    (VoteRecorded (upvotes (comment_votes (votedComment u v c)))
                  (downvotes (comment_votes (votedComment u v c))),
     let db1 := savedComment cid u v c db in
     storeKarma (comment_author c)
       (postsKarma (comment_author c) db1 + commentsKarma (comment_author c) db1)
       db1).
Proof.
  intros Hv Hc. unfold voteComment, voteCommentBody. rewrite Hv. run_handler.
  rewrite Hc. simpl. unfold storeKarma, savedComment. simpl.
  destruct (users db !! comment_author c); reflexivity.
Qed.

Lemma votePost_invalid u pid v flt db :
  validVote v = false →
  votePost u pid v flt db = (Message 400 "Invalid vote value", db).
Proof. intros Hv. unfold votePost, votePostBody. by rewrite Hv. Qed.

Lemma voteComment_invalid u cid v flt db :
  validVote v = false →
  voteComment u cid v flt db = (Message 400 "Invalid vote value", db).
Proof. intros Hv. unfold voteComment, voteCommentBody. by rewrite Hv. Qed.

Lemma posts_storeKarma a k db : posts (storeKarma a k db) = posts db.
Proof. unfold storeKarma. by destruct (users db !! a). Qed.

Lemma comments_storeKarma a k db : comments (storeKarma a k db) = comments db.
Proof. unfold storeKarma. by destruct (users db !! a). Qed.

Lemma votePost_posts u pid v p db :
  validVote v = true → posts db !! pid = Some p →
  posts (snd (votePost u pid v None db)) = <[pid := votedPost u v p]> (posts db) ∧
  comments (snd (votePost u pid v None db)) = comments db.
Proof.
  intros Hv Hp. rewrite (votePost_run u pid v p) by done. simpl.
  by rewrite posts_storeKarma, comments_storeKarma.
Qed.

Lemma voteComment_comments u cid v c db :
  validVote v = true → comments db !! cid = Some c →
  comments (snd (voteComment u cid v None db))
    = <[cid := votedComment u v c]> (comments db) ∧
  posts (snd (voteComment u cid v None db)) = posts db.
Proof.
  intros Hv Hc. rewrite (voteComment_run u cid v c) by done. simpl.
  by rewrite posts_storeKarma, comments_storeKarma.
Qed.

(** ** Counter conservation *)

Lemma lastStep_applyVote u0 v0 t u :
  validVote v0 = true → NoDup (user <$> voters t) →
  recorded u (voters (applyVote u0 v0 t)) = lastStep u (recorded u (voters t)) (u0, v0).
Proof.
  intros Hv Hnd. rewrite applyVote_recorded by done.
  unfold lastStep. simpl. rewrite Hv.
  destruct (decide (u = u0)), (decide (u0 = u)); congruence.
Qed.

Lemma castAll_posts_inv pid ops : ∀ db p,
  posts db !! pid = Some p → consistent (post_votes p) →
  ∃ p', posts (castAll (λ u v, votePost u pid v None) ops db) !! pid = Some p' ∧
        consistent (post_votes p') ∧
        ∀ u, recorded u (voters (post_votes p'))
             = fold_left (lastStep u) ops (recorded u (voters (post_votes p))).
Proof.
  induction ops as [|[u0 v0] ops IH]; intros db p Hp Hc; simpl.
  - eauto.
  - destruct (validVote v0) eqn:Hv.
    + destruct (votePost_posts u0 pid v0 p db Hv Hp) as [Hposts _].
      destruct (IH (snd (votePost u0 pid v0 None db)) (votedPost u0 v0 p))
        as (p' & Hp' & Hc' & Hrec).
      { rewrite Hposts. apply lookup_insert_eq. }
      { by apply applyVote_consistent. }
      exists p'. split_and!; [done..|].
      intros u. rewrite Hrec. simpl. f_equal.
      apply lastStep_applyVote; [done|]. by destruct Hc.
    + rewrite votePost_invalid by done. simpl.
      destruct (IH db p Hp Hc) as (p' & Hp' & Hc' & Hrec).
      exists p'. split_and!; [done..|].
      intros u. rewrite Hrec. f_equal. unfold lastStep. simpl.
      rewrite Hv. by case_decide.
Qed.

Lemma castAll_comments_inv cid ops : ∀ db c,
  comments db !! cid = Some c → consistent (comment_votes c) →
  ∃ c', comments (castAll (λ u v, voteComment u cid v None) ops db) !! cid = Some c' ∧
        consistent (comment_votes c') ∧
        ∀ u, recorded u (voters (comment_votes c'))
             = fold_left (lastStep u) ops (recorded u (voters (comment_votes c))).
Proof.
  induction ops as [|[u0 v0] ops IH]; intros db c Hc Hcons; simpl.
  - eauto.
  - destruct (validVote v0) eqn:Hv.
    + destruct (voteComment_comments u0 cid v0 c db Hv Hc) as [Hcs _].
      destruct (IH (snd (voteComment u0 cid v0 None db)) (votedComment u0 v0 c))
        as (c' & Hc' & Hcons' & Hrec).
      { rewrite Hcs. apply lookup_insert_eq. }
      { by apply applyVote_consistent. }
      exists c'. split_and!; [done..|].
      intros u. rewrite Hrec. simpl. f_equal.
      apply lastStep_applyVote; [done|]. by destruct Hcons.
    + rewrite voteComment_invalid by done. simpl.
      destruct (IH db c Hc Hcons) as (c' & Hc' & Hcons' & Hrec).
      exists c'. split_and!; [done..|].
      intros u. rewrite Hrec. f_equal. unfold lastStep. simpl.
      rewrite Hv. by case_decide.
Qed.

Lemma consistent_counts t ops :
  consistent t →
  (∀ u, recorded u (voters t) = lastVote u ops) →
  upvotes t = Z.of_nat (length (usersVoting 1 ops)) ∧
  downvotes t = Z.of_nat (length (usersVoting (-1) ops)).
Proof.
  intros Hc Hrec. split.
  - rewrite (cons_up _ Hc). by apply countVotes_usersVoting.
  - rewrite (cons_down _ Hc). by apply countVotes_usersVoting.
Qed.

(** C2 (counter conservation).  Any sequence of casts on one fresh
    target, by any users and in particular by distinct ones, each cast
    running to completion: the target's [upvotes] is the number of users
    whose last accepted cast is [+1] and its [downvotes] the number of
    users whose last accepted cast is [-1]; and the [voters] array holds
    one entry per such user, so that the counters count its up and down
    entries.  This holds for a post through the post handler and for a
    comment through the comment handler. *)
Theorem C2_counter_conservation (ops : list (ObjectId * Z)) (db : DB) (id : ObjectId) :
  (∀ p, posts db !! id = Some p → post_votes p = fresh →
     ∃ p', posts (castAll (λ u v, votePost u id v None) ops db) !! id = Some p' ∧
           upvotes (post_votes p') = Z.of_nat (length (usersVoting 1 ops)) ∧
           downvotes (post_votes p') = Z.of_nat (length (usersVoting (-1) ops)) ∧
           consistent (post_votes p')) ∧
  (∀ c, comments db !! id = Some c → comment_votes c = fresh →
     ∃ c', comments (castAll (λ u v, voteComment u id v None) ops db) !! id = Some c' ∧
           upvotes (comment_votes c') = Z.of_nat (length (usersVoting 1 ops)) ∧
           downvotes (comment_votes c') = Z.of_nat (length (usersVoting (-1) ops)) ∧
           consistent (comment_votes c')).
Proof.
  split.
  - intros p Hp Hfresh.
    destruct (castAll_posts_inv id ops db p Hp) as (p' & Hp' & Hc' & Hrec).
    { rewrite Hfresh. apply consistent_fresh. }
    exists p'. split; [done|].
    destruct (consistent_counts (post_votes p') ops Hc') as [Hup Hdown]; [|done].
    intros u. rewrite Hrec, Hfresh. done.
  - intros c Hc Hfresh.
    destruct (castAll_comments_inv id ops db c Hc) as (c' & Hc' & Hcons' & Hrec).
    { rewrite Hfresh. apply consistent_fresh. }
    exists c'. split; [done|].
    destruct (consistent_counts (comment_votes c') ops Hcons') as [Hup Hdown]; [|done].
    intros u. rewrite Hrec, Hfresh. done.
Qed.

(** ** Idempotence *)

Lemma addVote_removeVote_same v vs t :
  addVote v (set_voters vs (removeVote v (addVote v t))) = addVote v (set_voters vs t).
Proof.
  destruct t as [up down vs0]. unfold addVote, removeVote.
  repeat case_decide; simpl; try lia; unfold set_voters, incUp, incDown; simpl;
    f_equal; lia.
Qed.

Lemma applyVote_idem u v t :
  NoDup (user <$> voters t) →
  applyVote u v (applyVote u v t) = applyVote u v t.
Proof.
  intros Hnd.
  destruct (decide (u ∈ user <$> voters t)) as [Hin|Hnin].
  - destruct (voters_split _ _ Hin) as (l1 & e & l2 & Hsplit & Hl1 & He).
    rewrite (applyVote_found u v t l1 e l2) by done.
    rewrite Hsplit in Hnd.
    destruct (NoDup_users_middle _ _ _ _ Hnd He) as [Hnot _].
    destruct (decide (v = 0)) as [->|Hz].
    + rewrite applyVote_absent by done. by rewrite decide_False by lia.
    + rewrite (applyVote_found u v _ l1 (set_vote v e) l2);
        [|by rewrite voters_addVote|done|done].
      rewrite decide_False by done. simpl.
      set (t1 := removeVote (vote e) t).
      replace (set_voters (l1 ++ set_vote v e :: l2)
                 (removeVote v (addVote v (set_voters (l1 ++ set_vote v e :: l2) t1))))
        with (set_voters (l1 ++ set_vote v e :: l2)
                 (removeVote v (addVote v t1))).
      * rewrite addVote_removeVote_same. done.
      * destruct t1. unfold addVote, removeVote. repeat case_decide; done.
  - rewrite (applyVote_absent u v t) by done.
    destruct (decide (v ≠ 0)) as [Hz|Hz].
    + rewrite (applyVote_found u v _ (voters t) (mkVoter u v) []);
        [|by rewrite voters_addVote| |done].
      * rewrite decide_False by done. simpl.
        replace (set_voters (voters t ++ [set_vote v (mkVoter u v)])
                   (removeVote v (addVote v (set_voters (voters t ++ [mkVoter u v]) t))))
          with (set_voters (voters t ++ [mkVoter u v]) (removeVote v (addVote v t))).
        -- rewrite addVote_removeVote_same. done.
        -- destruct t. unfold addVote, removeVote. repeat case_decide; done.
      * apply Forall_forall. intros x Hx Hux. apply Hnin.
        apply list_elem_of_fmap. eauto.
    + rewrite applyVote_absent by done. by rewrite decide_False.
Qed.

Lemma votedPost_idem u v p :
  NoDup (user <$> voters (post_votes p)) →
  votedPost u v (votedPost u v p) = votedPost u v p.
Proof.
  intros Hnd. unfold votedPost, set_votes_post. simpl.
  by rewrite applyVote_idem.
Qed.

Lemma votedComment_idem u v c :
  NoDup (user <$> voters (comment_votes c)) →
  votedComment u v (votedComment u v c) = votedComment u v c.
Proof.
  intros Hnd. unfold votedComment, set_votes_comment. simpl.
  by rewrite applyVote_idem.
Qed.

Lemma storeKarma_idem a k db :
  storeKarma a k (storeKarma a k db) = storeKarma a k db.
Proof.
  unfold storeKarma. destruct (users db !! a) as [usr|] eqn:Hu; simpl.
  - rewrite lookup_insert_eq. unfold set_users. simpl.
    by rewrite insert_insert_eq.
  - by rewrite Hu.
Qed.

(** C3 (idempotence).  On a target whose [voters] array holds at most
    one entry per user, casting the same valid value a second time
    answers as the first cast did and leaves the whole store, hence the
    target's counters and the user's vote entry, as the first cast left
    it; for the post handler and for the comment handler. *)
Theorem C3_castVote_idempotent (db : DB) (u id : ObjectId) (v : Z) :
  validVote v = true →
  (∀ p, posts db !! id = Some p → NoDup (user <$> voters (post_votes p)) →
     votePost u id v None (snd (votePost u id v None db)) = votePost u id v None db) ∧
  (∀ c, comments db !! id = Some c → NoDup (user <$> voters (comment_votes c)) →
     voteComment u id v None (snd (voteComment u id v None db))
       = voteComment u id v None db).
Proof.
  intros Hv. split.
  - intros p Hp Hnd.
    rewrite (votePost_run u id v p db) by done. simpl.
    set (db1 := savedPost id u v p db).
    rewrite (votePost_run u id v (votedPost u v p)); [|done|].
    + rewrite votedPost_idem by done. f_equal. simpl.
      assert (savedPost id u v (votedPost u v p)
                (storeKarma (post_author p) (postsKarma (post_author p) db1) db1)
              = storeKarma (post_author p) (postsKarma (post_author p) db1) db1) as ->.
      { unfold savedPost. rewrite votedPost_idem by done.
        rewrite posts_storeKarma. unfold db1, savedPost. simpl.
        rewrite insert_insert_eq.
        unfold storeKarma, set_posts, set_users. simpl.
        destruct (users db !! post_author p); done. }
      unfold postsKarma at 1. rewrite posts_storeKarma.
      apply storeKarma_idem.
    + rewrite posts_storeKarma. unfold db1, savedPost. simpl.
      apply lookup_insert_eq.
  - intros c Hc Hnd.
    rewrite (voteComment_run u id v c db) by done. simpl.
    set (db1 := savedComment id u v c db).
    rewrite (voteComment_run u id v (votedComment u v c)); [|done|].
    + rewrite votedComment_idem by done. f_equal. simpl.
      set (k := postsKarma (comment_author c) db1 + commentsKarma (comment_author c) db1).
      assert (savedComment id u v (votedComment u v c)
                (storeKarma (comment_author c) k db1)
              = storeKarma (comment_author c) k db1) as ->.
      { unfold savedComment. rewrite votedComment_idem by done.
        rewrite comments_storeKarma. unfold db1, savedComment. simpl.
        rewrite insert_insert_eq.
        unfold storeKarma, set_comments, set_users. simpl.
        destruct (users db !! comment_author c); done. }
      unfold postsKarma at 1, commentsKarma at 1.
      rewrite posts_storeKarma, comments_storeKarma.
      apply storeKarma_idem.
    + rewrite comments_storeKarma. unfold db1, savedComment. simpl.
      apply lookup_insert_eq.
Qed.

(** ** Sign of the counters *)

Lemma applyVote_nonneg u v t :
  reflected u t →
  0 ≤ upvotes (applyVote u v t) ∧ 0 ≤ downvotes (applyVote u v t).
Proof.
  intros (Hup & Hdown & H1 & H2). unfold recorded in H1, H2.
  unfold applyVote. destruct (findVoter u (voters t)) as [[i e]|].
  - unfold removeVote, addVote.
    repeat case_decide; simpl; lia.
  - unfold addVote. repeat case_decide; simpl; lia.
Qed.

Lemma votePost_posts_cases u pid v p flt db :
  posts db !! pid = Some p →
  posts (snd (votePost u pid v flt db)) = posts db ∨
  posts (snd (votePost u pid v flt db)) = <[pid := votedPost u v p]> (posts db).
Proof.
  intros Hp. unfold votePost, votePostBody.
  destruct (validVote v); simpl; [|by left].
  run_handler.
  destruct flt as [[[] msg]|]; simpl; rewrite ?Hp; simpl; auto;
    destruct (users db !! post_author p); simpl; auto.
Qed.

Lemma voteComment_comments_cases u cid v c flt db :
  comments db !! cid = Some c →
  comments (snd (voteComment u cid v flt db)) = comments db ∨
  comments (snd (voteComment u cid v flt db))
    = <[cid := votedComment u v c]> (comments db).
Proof.
  intros Hc. unfold voteComment, voteCommentBody.
  destruct (validVote v); simpl; [|by left].
  run_handler.
  destruct flt as [[[] msg]|]; simpl; rewrite ?Hc; simpl; auto;
    destruct (users db !! comment_author c); simpl; auto.
Qed.

(** C4, the claim as stated fails: there is no clamp.  On [driftedDB]
    user 2 retracts the vote on post 10 and [upvotes] becomes [-1]. *)
Lemma C4_counterexample_upvotes_negative :
  ∃ p', posts (snd (votePost 2%nat 10%nat 0 None driftedDB)) !! 10%nat = Some p' ∧
        upvotes (post_votes p') = -1.
Proof. eexists. split; [vm_compute; reflexivity|reflexivity]. Qed.

(** C4 (amended).  The vote handlers do not clamp the counters.  When
    the counters of the target are non-negative and the caller's stored
    vote, if there is one, is counted in them, a cast leaves both
    counters non-negative, whatever the value cast and whichever store
    call rejects; for posts and for comments. *)
Theorem C4_counters_stay_nonneg (db : DB) (u id : ObjectId) (v : Z)
    (flt : option (Await * string)) :
  (∀ p p', posts db !! id = Some p → reflected u (post_votes p) →
     posts (snd (votePost u id v flt db)) !! id = Some p' →
     0 ≤ upvotes (post_votes p') ∧ 0 ≤ downvotes (post_votes p')) ∧
  (∀ c c', comments db !! id = Some c → reflected u (comment_votes c) →
     comments (snd (voteComment u id v flt db)) !! id = Some c' →
     0 ≤ upvotes (comment_votes c') ∧ 0 ≤ downvotes (comment_votes c')).
Proof.
  split.
  - intros p p' Hp Hr Hp'.
    destruct (votePost_posts_cases u id v p flt db Hp) as [Heq|Heq];
      rewrite Heq in Hp'.
    + assert (p' = p) as -> by congruence. unfold reflected in Hr. tauto.
    + rewrite lookup_insert_eq in Hp'. injection Hp' as <-.
      simpl. by apply applyVote_nonneg.
  - intros c c' Hc Hr Hc'.
    destruct (voteComment_comments_cases u id v c flt db Hc) as [Heq|Heq];
      rewrite Heq in Hc'.
    + assert (c' = c) as -> by congruence. unfold reflected in Hr. tauto.
    + rewrite lookup_insert_eq in Hc'. injection Hc' as <-.
      simpl. by apply applyVote_nonneg.
Qed.

(** ** Rejected casts *)

(** C6 (atomic on failure).  A cast whose value is not [-1], [0] or [1]
    is answered [400 Invalid vote value], and a cast with a valid value
    on a target that is not in the store is answered [404 ... not
    found]; in both cases the store after the request is the store
    before it: counters, [voters] arrays and karma are untouched.  For
    posts and for comments. *)
Theorem C6_rejected_cast_mutates_nothing (db : DB) (u id : ObjectId) (v : Z)
    (flt : option (Await * string)) :
  (validVote v = false →
     votePost u id v flt db = (Message 400 "Invalid vote value", db) ∧
     voteComment u id v flt db = (Message 400 "Invalid vote value", db)) ∧
  (validVote v = true → posts db !! id = None → ¬ rejects PostFindById flt →
     votePost u id v flt db = (Message 404 "Post not found", db)) ∧
  (validVote v = true → comments db !! id = None → ¬ rejects CommentFindById flt →
     voteComment u id v flt db = (Message 404 "Comment not found", db)).
Proof.
  split_and!.
  - intros Hv. by rewrite votePost_invalid, voteComment_invalid.
  - intros Hv Hp Hflt. unfold votePost, votePostBody. rewrite Hv. run_handler.
    destruct flt as [[a msg]|]; simpl; [|by rewrite Hp].
    destruct (decide (a = PostFindById)) as [->|]; [|by rewrite Hp].
    exfalso. apply Hflt. by exists msg.
  - intros Hv Hc Hflt. unfold voteComment, voteCommentBody. rewrite Hv. run_handler.
    destruct flt as [[a msg]|]; simpl; [|by rewrite Hc].
    destruct (decide (a = CommentFindById)) as [->|]; [|by rewrite Hc].
    exfalso. apply Hflt. by exists msg.
Qed.

(** ** A zero vote without a stored vote *)

Lemma applyVote_zero_absent u t :
  u ∉ user <$> voters t → applyVote u 0 t = t.
Proof. intros Hn. rewrite applyVote_absent by done. by rewrite decide_False by lia. Qed.

Lemma users_storeKarma_other a k db b :
  b ≠ a → users (storeKarma a k db) !! b = users db !! b.
Proof.
  intros Hne. unfold storeKarma. destruct (users db !! a); [|done].
  simpl. by rewrite lookup_insert_ne.
Qed.

Lemma users_storeKarma_same a k db usr :
  users db !! a = Some usr →
  users (storeKarma a k db) !! a = Some (set_karma k usr).
Proof.
  intros Hu. unfold storeKarma. rewrite Hu. simpl. apply lookup_insert_eq.
Qed.

(** C9, the claim as stated fails: the cast is not a pure no-op.  On
    [karmaDB] user 3, who has no entry on post 10, casts [0]: the
    request succeeds with the unchanged counters, and the handler's
    karma statements still run and overwrite the karma of the author,
    user 1, so the store after the request is not the store before
    it. *)
Lemma C9_counterexample_zero_vote_rewrites_karma :
  (3%nat ∉ user <$> voters (post_votes karmaPost)) ∧
  fst (votePost 3%nat 10%nat 0 None karmaDB) = VoteRecorded 0 0 ∧
  users karmaDB !! 1%nat = Some (mkUser 1) ∧
  users (snd (votePost 3%nat 10%nat 0 None karmaDB)) !! 1%nat = Some (mkUser 0) ∧
  snd (votePost 3%nat 10%nat 0 None karmaDB) ≠ karmaDB.
Proof.
  split_and!.
  - simpl. apply not_elem_of_nil.
  - vm_compute. reflexivity.
  - vm_compute. reflexivity.
  - vm_compute. reflexivity.
  - intros Heq.
    assert (users (snd (votePost 3%nat 10%nat 0 None karmaDB)) !! 1%nat
            = users karmaDB !! 1%nat) as Hu by (by rewrite Heq).
    vm_compute in Hu. discriminate Hu.
Qed.

(** C9 (amended).  A cast of [0] by a user who has no entry in the
    target's [voters] array, every store call resolving, is answered
    with success and the counters the target had; every post and every
    comment of the store (so the counters, the [voters] arrays and all
    that karma is computed from) and every user other than the target's
    author are as before.  It is not a no-op on the author: the karma
    statements still run, and when the author is a stored user the
    author's karma is overwritten with the value they compute, which for
    a vote on a comment is the sum over the author's posts and comments;
    the store is unchanged when the author is not a stored user. *)
Theorem C9_zero_vote_rewrites_only_karma (db : DB) (u id : ObjectId) :
  (∀ p, posts db !! id = Some p → u ∉ user <$> voters (post_votes p) →
     fst (votePost u id 0 None db)
       = VoteRecorded (upvotes (post_votes p)) (downvotes (post_votes p)) ∧
     posts (snd (votePost u id 0 None db)) = posts db ∧
     comments (snd (votePost u id 0 None db)) = comments db ∧
     (∀ b, b ≠ post_author p →
           users (snd (votePost u id 0 None db)) !! b = users db !! b) ∧
     (users db !! post_author p = None → snd (votePost u id 0 None db) = db) ∧
     (∀ usr, users db !! post_author p = Some usr →
        ∃ k, users (snd (votePost u id 0 None db)) !! post_author p
               = Some (set_karma k usr))) ∧
  (∀ c, comments db !! id = Some c → u ∉ user <$> voters (comment_votes c) →
     fst (voteComment u id 0 None db)
       = VoteRecorded (upvotes (comment_votes c)) (downvotes (comment_votes c)) ∧
     posts (snd (voteComment u id 0 None db)) = posts db ∧
     comments (snd (voteComment u id 0 None db)) = comments db ∧
     (∀ b, b ≠ comment_author c →
           users (snd (voteComment u id 0 None db)) !! b = users db !! b) ∧
     (users db !! comment_author c = None → snd (voteComment u id 0 None db) = db) ∧
     (∀ usr, users db !! comment_author c = Some usr →
        users (snd (voteComment u id 0 None db)) !! comment_author c
          = Some (set_karma (totalKarma (comment_author c) db) usr))).
Proof.
  split.
  - intros p Hp Hn.
    assert (votedPost u 0 p = p) as Hsame.
    { unfold votedPost. rewrite applyVote_zero_absent by done. by destruct p. }
    assert (savedPost id u 0 p db = db) as Hdb.
    { unfold savedPost. rewrite Hsame. destruct db as [ps cs us]. unfold set_posts.
      simpl in *. f_equal. by apply insert_id. }
    rewrite (votePost_run u id 0 p db) by done. cbv zeta. cbn [fst snd].
    rewrite Hsame, Hdb, posts_storeKarma, comments_storeKarma.
    split_and!; [done..| | |].
    + intros b Hb. by rewrite users_storeKarma_other.
    + intros Hu. unfold storeKarma. by rewrite Hu.
    + intros usr Hu. eexists. by apply users_storeKarma_same.
  - intros c Hc Hn.
    assert (votedComment u 0 c = c) as Hsame.
    { unfold votedComment. rewrite applyVote_zero_absent by done. by destruct c. }
    assert (savedComment id u 0 c db = db) as Hdb.
    { unfold savedComment. rewrite Hsame. destruct db as [ps cs us].
      unfold set_comments. simpl in *. f_equal. by apply insert_id. }
    rewrite (voteComment_run u id 0 c db) by done. cbv zeta. cbn [fst snd].
    rewrite Hsame, Hdb, posts_storeKarma, comments_storeKarma.
    split_and!; [done..| | |].
    + intros b Hb. by rewrite users_storeKarma_other.
    + intros Hu. unfold storeKarma. by rewrite Hu.
    + intros usr Hu. by apply users_storeKarma_same.
Qed.

(** ** Karma *)

(** After a vote on a comment the author's karma is the sum over the
    author's posts and comments in the resulting store. *)
Lemma voteComment_karma_total u cid v c usr db :
  validVote v = true → comments db !! cid = Some c →
  users db !! comment_author c = Some usr →
  let db' := snd (voteComment u cid v None db) in
  karma <$> users db' !! comment_author c = Some (totalKarma (comment_author c) db').
Proof.
  intros Hv Hc Hu. rewrite (voteComment_run u cid v c db) by done. simpl.
  set (db1 := savedComment cid u v c db).
  erewrite users_storeKarma_same by exact Hu. simpl.
  unfold totalKarma, postsKarma, commentsKarma.
  by rewrite posts_storeKarma, comments_storeKarma.
Qed.

(** After a vote on a post the author's karma is the sum over the
    author's posts only. *)
Lemma votePost_karma_posts u pid v p usr db :
  validVote v = true → posts db !! pid = Some p →
  users db !! post_author p = Some usr →
  let db' := snd (votePost u pid v None db) in
  karma <$> users db' !! post_author p = Some (postsKarma (post_author p) db').
Proof.
  intros Hv Hp Hu. rewrite (votePost_run u pid v p db) by done. simpl.
  erewrite users_storeKarma_same by exact Hu. simpl.
  unfold postsKarma. by rewrite posts_storeKarma.
Qed.

(** C1, at the failing input: user 2 up-votes post 10.  The post handler
    stores the sum over the author's posts, [1], while the sum over the
    author's posts and comments is [2]. *)
Theorem C1_post_vote_karma_omits_comments :
  let db' := snd (votePost 2%nat 10%nat 1 None karmaDB) in
  fst (votePost 2%nat 10%nat 1 None karmaDB) = VoteRecorded 1 0 ∧
  karma <$> users db' !! 1%nat = Some 1 ∧
  totalKarma 1%nat db' = 2.
Proof. vm_compute. done. Qed.

(** ** A rejected karma call *)

(** C8, the claim as stated fails: the karma statements run inside the
    handler's only [try] block.  User 2 up-votes post 10 and the save of
    the author's user document rejects: the post is saved with the vote,
    and the request is answered [400] with the error's message. *)
Lemma C8_counterexample_karma_failure_fails_cast :
  let r := votePost 2%nat 10%nat 1 (Some (UserSave, "write failed")) karmaDB in
  posts (snd r) !! 10%nat = Some (mkPost 1%nat 0 (mkVotes 1 0 [mkVoter 2%nat 1])) ∧
  fst r = Message 400 "write failed" ∧
  ¬ isSuccess (fst r).
Proof.
  vm_compute. split_and!; [done..|]. intros (up & down & H). discriminate H.
Qed.

(** C8 (amended).  When the target is saved and a store call of the
    karma statements then rejects (looking up the author, an aggregate,
    or saving the author), the cast is answered [400] with the error's
    message; the saved counters and [voters] array stay in the store and
    the karma is left as it was.  For posts and for comments. *)
Theorem C8_karma_failure_answers_400 (db : DB) (u id : ObjectId) (v : Z)
    (a : Await) (msg : string) :
  validVote v = true →
  (∀ p usr, posts db !! id = Some p → users db !! post_author p = Some usr →
     a ∈ karmaCallsPost →
     votePost u id v (Some (a, msg)) db = (Message 400 msg, savedPost id u v p db)) ∧
  (∀ c usr, comments db !! id = Some c → users db !! comment_author c = Some usr →
     a ∈ karmaCallsComment →
     voteComment u id v (Some (a, msg)) db
       = (Message 400 msg, savedComment id u v c db)).
Proof.
  intros Hv. split.
  - intros p usr Hp Hu Ha. unfold votePost, votePostBody. rewrite Hv.
    unfold karmaCallsPost in Ha.
    repeat (apply elem_of_cons in Ha as [->|Ha]); [..|by apply elem_of_nil in Ha];
      run_handler; rewrite Hp; simpl; rewrite ?Hu; reflexivity.
  - intros c usr Hc Hu Ha. unfold voteComment, voteCommentBody. rewrite Hv.
    unfold karmaCallsComment in Ha.
    repeat (apply elem_of_cons in Ha as [->|Ha]); [..|by apply elem_of_nil in Ha];
      run_handler; rewrite Hc; simpl; rewrite ?Hu; reflexivity.
Qed.

(** ** The comment tree *)

Global Instance newestFirst_total : Total newestFirst.
Proof. intros a b. unfold newestFirst. lia. Qed.

Global Instance oldestFirst_total : Total oldestFirst.
Proof. intros a b. unfold oldestFirst. lia. Qed.

Global Instance newestFirst_trans : Transitive newestFirst.
Proof. intros a b c. unfold newestFirst. lia. Qed.

Global Instance oldestFirst_trans : Transitive oldestFirst.
Proof. intros a b c. unfold oldestFirst. lia. Qed.

Lemma findReplies_sorted id db : StronglySorted oldestFirst (findReplies id db).
Proof. apply StronglySorted_merge_sort; apply _. Qed.

Lemma findReplies_perm id db :
  findReplies id db ≡ₚ filter (isReplyTo id) (map_to_list (comments db)).
Proof. apply merge_sort_Permutation. Qed.

Lemma findRoots_sorted postId db : StronglySorted newestFirst (findRoots postId db).
Proof. apply StronglySorted_merge_sort; apply _. Qed.

Lemma findRoots_perm postId db :
  findRoots postId db ≡ₚ filter (isRootOf postId) (map_to_list (comments db)).
Proof. apply merge_sort_Permutation. Qed.

Lemma findReplies_elem id db d :
  d ∈ findReplies id db ↔ comments db !! d.1 = Some d.2 ∧ parentId d.2 = Some id.
Proof.
  rewrite findReplies_perm, list_elem_of_filter. unfold isReplyTo.
  destruct d as [k c]. rewrite elem_of_map_to_list. simpl. tauto.
Qed.

(** Whenever [populateReplies] returns, it returns the given comments in
    the given order, each with its thread. *)
Lemma populateReplies_thread db fuel : ∀ cs forest,
  populateReplies fuel db cs = Some forest →
  nodeDoc <$> forest = cs ∧ Forall (thread db) forest.
Proof.
  induction fuel as [|fuel IH]; intros cs forest; simpl; [done|].
  intros HF%mapM_Some.
  induction HF as [|d n cs forest Hd HF IHF]; [done|].
  destruct IHF as [Hdocs Hthreads].
  assert (nodeDoc n = d ∧ thread db n) as [Hn Ht].
  { destruct (decide (0 < length (findReplies d.1 db))%nat).
    - destruct (populateReplies fuel db (findReplies d.1 db)) as [rs|] eqn:Hrs;
        [|done].
      injection Hd as <-. destruct (IH _ _ Hrs) as [Hrd Hrt].
      split; [by destruct d|]. constructor; [| |done].
      + rewrite Hrd. apply findReplies_sorted.
      + rewrite Hrd. apply findReplies_perm.
    - injection Hd as <-. split; [by destruct d|].
      constructor; [constructor| |constructor].
      simpl. rewrite <- findReplies_perm.
      destruct (findReplies d.1 db); [done|]. simpl in *. lia. }
  split.
  - rewrite fmap_cons. by f_equal.
  - by constructor.
Qed.

(** With a nesting bound above the height of the given comments,
    [populateReplies] returns. *)
Lemma populateReplies_returns db h :
  acyclic h db →
  ∀ n cs, Forall (λ d, h d.1 ≤ n)%nat cs → is_Some (populateReplies (S n) db cs).
Proof.
  intros Hacyc. induction n as [|n IH]; intros cs Hcs.
  - simpl. apply mapM_is_Some. eapply Forall_impl; [exact Hcs|].
    intros d Hd. simpl.
    destruct (findReplies d.1 db) as [|r rs] eqn:Hr; [by eexists|].
    exfalso.
    assert (r ∈ findReplies d.1 db) as [Hin Hpar]%findReplies_elem
      by (rewrite Hr; left).
    specialize (Hacyc _ _ Hin). simpl in Hacyc, Hd. rewrite Hpar in Hacyc. lia.
  - cbn [populateReplies]. apply mapM_is_Some. eapply Forall_impl; [exact Hcs|].
    intros d Hd. unfold compose. cbv beta zeta.
    destruct (decide (0 < length (findReplies d.1 db))%nat); [|by eexists].
    apply fmap_is_Some. apply IH.
    apply Forall_forall. intros r [Hin Hpar]%findReplies_elem.
    specialize (Hacyc _ _ Hin). simpl in Hacyc, Hd. rewrite Hpar in Hacyc. lia.
Qed.

Lemma height_bound (h : ObjectId → nat) (cs : list (ObjectId * Comment)) :
  Forall (λ d, h d.1 ≤ max_list_with (λ d, h d.1) cs)%nat cs.
Proof.
  induction cs as [|d cs IH]; [constructor|].
  constructor; simpl; [lia|].
  eapply Forall_impl; [exact IH|]. intros x Hx. simpl in *. lia.
Qed.

(** C5 (tree ordering).  Whatever the listing returns for a post is:
    the comments of that post without parent, newest first, and under
    every node, at any depth, exactly the comments replying to it,
    oldest first.  And in a store where no comment is its own ancestor
    the listing does return, for every large enough nesting bound. *)
Theorem C5_roots_newest_first_replies_oldest_first (db : DB) (postId : ObjectId) :
  (∀ fuel r, getComments fuel postId db = Some r →
     ∃ forest,
       r = Json 200 forest ∧
       StronglySorted newestFirst (nodeDoc <$> forest) ∧
       nodeDoc <$> forest ≡ₚ filter (isRootOf postId) (map_to_list (comments db)) ∧
       Forall (thread db) forest) ∧
  (∀ h, acyclic h db →
     ∃ fuel0, ∀ fuel, (fuel0 ≤ fuel)%nat → is_Some (getComments fuel postId db)).
Proof.
  split.
  - intros fuel r. unfold getComments.
    destruct (populateReplies fuel db (findRoots postId db)) as [forest|] eqn:Hforest;
      simpl; [|done].
    intros [= <-]. exists forest.
    destruct (populateReplies_thread db _ _ _ Hforest) as [Hdocs Hthreads].
    split_and!; [done| | |done].
    + rewrite Hdocs. apply findRoots_sorted.
    + rewrite Hdocs. apply findRoots_perm.
  - intros h Hacyc.
    exists (S (max_list_with (λ d, h d.1) (findRoots postId db))).
    intros fuel Hfuel. destruct fuel as [|n]; [lia|].
    destruct (populateReplies_returns db h Hacyc n (findRoots postId db))
      as [forest Hforest].
    { eapply Forall_impl; [apply (height_bound h)|].
      intros d Hd. cbv beta in Hd |- *. lia. }
    unfold getComments. rewrite Hforest. by eexists.
Qed.

(** On [threadDB] the listing has the roots in the order 13, 12, 11 and
    the replies of 11 in the order 14, 15. *)
Example getComments_threadDB :
  getComments 2 7%nat threadDB =
    Some (Json 200
      [ Node 13%nat (mkComment 1%nat 7%nat None 3 fresh) [];
        Node 12%nat (mkComment 1%nat 7%nat None 2 fresh) [];
        Node 11%nat (mkComment 1%nat 7%nat None 1 fresh)
          [ Node 14%nat (mkComment 1%nat 7%nat (Some 11%nat) 4 fresh) [];
            Node 15%nat (mkComment 1%nat 7%nat (Some 11%nat) 5 fresh) [] ] ]).
Proof. vm_compute. reflexivity. Qed.

(** ** Comments and the posts they belong to *)

(** C7.  In a store where every comment belongs to a stored post, the
    listing for an id that is not the id of a stored post answers [200]
    with the empty forest, at any nesting bound. *)
Theorem C7_unknown_post_empty_forest (db : DB) (postId : ObjectId) (fuel : nat) :
  refIntegrity db → posts db !! postId = None →
  getComments (S fuel) postId db = Some (Json 200 []).
Proof.
  intros Hint Hp. unfold getComments, findRoots.
  assert (filter (isRootOf postId) (map_to_list (comments db)) = []) as ->.
  { destruct (filter _ _) as [|[id c] l] eqn:Hf; [done|]. exfalso.
    assert ((id, c) ∈ filter (isRootOf postId) (map_to_list (comments db)))
      as [[Hpost _] Hin%elem_of_map_to_list]%list_elem_of_filter
      by (rewrite Hf; left).
    destruct (Hint _ _ Hin) as [p Hp']. simpl in *. congruence. }
  reflexivity.
Qed.

(** ** Creating and deleting *)

Ltac run_handler2 :=
  run_handler; unfold removeComment, removePost, deleteManyComments; simpl.

(** C10.  Deleting a comment never leaves a negative [commentCount]:
    whichever store call rejects, every post of the resulting store is
    either the post as it was or has a [commentCount] of at least [0];
    and when the author deletes a comment of a stored post, all calls
    resolving, that post's count becomes [max 0 (count - 1)], whatever
    the count was. *)
Theorem C10_commentCount_floor (db : DB) (userId id : ObjectId) :
  (∀ flt pid p', posts (snd (deleteComment userId id flt db)) !! pid = Some p' →
     posts db !! pid = Some p' ∨ 0 ≤ commentCount p') ∧
  (∀ c p, comments db !! id = Some c → comment_author c = userId →
     posts db !! comment_post c = Some p →
     fst (deleteComment userId id None db) = Message 200 "Comment deleted successfully" ∧
     ∃ p', posts (snd (deleteComment userId id None db)) !! comment_post c = Some p' ∧
           commentCount p' = Z.max 0 (commentCount p - 1) ∧
           0 ≤ commentCount p').
Proof.
  split.
  - intros flt pid p'. unfold deleteComment, deleteCommentBody. run_handler2.
    destruct flt as [[[] msg]|]; simpl;
      (destruct (comments db !! id) as [c|]; simpl; [|by left]);
      (destruct (decide (comment_author c ≠ userId)); simpl; [by left|]);
      try (by left);
      (destruct (posts db !! comment_post c) as [p|] eqn:Hp; simpl; [|by left]);
      try (by left);
      (destruct (decide (pid = comment_post c)) as [->|Hne];
        [rewrite lookup_insert_eq; intros [= <-]; right; simpl; lia
        |rewrite lookup_insert_ne by done; by left]).
  - intros c p Hc Ha Hp. unfold deleteComment, deleteCommentBody. run_handler2.
    rewrite Hc. simpl. rewrite decide_False by (intros H; by apply H).
    simpl. rewrite Hp. simpl. split; [done|].
    eexists. rewrite lookup_insert_eq. split; [done|]. simpl. lia.
Qed.

(** ** The handlers keep every comment attached to a stored post *)



Lemma lookup_insert_same_or {A} (m : gmap nat A) k x id y :
  <[k := x]> m !! id = Some y → m !! id = Some y ∨ (id = k ∧ y = x).
Proof.
  destruct (decide (k = id)) as [->|].
  - rewrite lookup_insert_eq. intros [= ->]. by right.
  - rewrite lookup_insert_ne by done. by left.
Qed.








(** ** The handlers keep the vote fields consistent *)

Lemma votesConsistent_intro db db' :
  (∀ id p, posts db' !! id = Some p →
     posts db !! id = Some p ∨ consistent (post_votes p)) →
  (∀ id c, comments db' !! id = Some c →
     comments db !! id = Some c ∨ consistent (comment_votes c)) →
  votesConsistent db → votesConsistent db'.
Proof.
  intros Hp Hc [HP HC]. split.
  - intros id p Hl. destruct (Hp id p Hl) as [Hold|Hnew]; [|done].
    exact (HP id p Hold).
  - intros id c Hl. destruct (Hc id c Hl) as [Hold|Hnew]; [|done].
    exact (HC id c Hold).
Qed.

Lemma lookup_delete_old {A} (m : gmap nat A) k id y :
  delete k m !! id = Some y → m !! id = Some y.
Proof.
  destruct (decide (k = id)) as [->|].
  - by rewrite lookup_delete_eq.
  - by rewrite lookup_delete_ne.
Qed.

Lemma lookup_filter_old {A} (P : nat * A → Prop) `{!∀ x, Decision (P x)}
    (m : gmap nat A) id y :
  filter P m !! id = Some y → m !! id = Some y.
Proof. intros Hl. by apply map_lookup_filter_Some in Hl as [Hl _]. Qed.

(** A lookup in the store after a handler ran either finds a document of
    the store before, or the document the handler saved. *)
Ltac old_or_saved H :=
  first
    [ by left
    | left; by apply lookup_delete_old in H
    | left; by apply lookup_filter_old in H
    | left; apply lookup_delete_old in H; by apply lookup_filter_old in H
    | apply lookup_insert_same_or in H as [H|[-> ->]]; [by left|right; simpl] ].

Lemma votePost_votesConsistent u pid v flt db :
  votesConsistent db → votesConsistent (snd (votePost u pid v flt db)).
Proof.
  unfold votePost, votePostBody. destruct (validVote v) eqn:Hv; simpl; [|done].
  run_handler. intros Hcons.
  destruct flt as [[[] msg]|]; simpl;
    (destruct (posts db !! pid) as [p0|] eqn:Hp0; simpl; [|done]); try done;
    try (destruct (users db !! post_author p0); simpl);
    (apply (votesConsistent_intro db); simpl; [| |done];
      intros i d Hd; old_or_saved Hd;
      apply applyVote_consistent; [done|exact (proj1 Hcons _ _ Hp0)]).
Qed.

Lemma voteComment_votesConsistent u cid v flt db :
  votesConsistent db → votesConsistent (snd (voteComment u cid v flt db)).
Proof.
  unfold voteComment, voteCommentBody. destruct (validVote v) eqn:Hv; simpl; [|done].
  run_handler. intros Hcons.
  destruct flt as [[[] msg]|]; simpl;
    (destruct (comments db !! cid) as [c0|] eqn:Hc0; simpl; [|done]); try done;
    try (destruct (users db !! comment_author c0); simpl);
    (apply (votesConsistent_intro db); simpl; [| |done];
      intros i d Hd; old_or_saved Hd;
      apply applyVote_consistent; [done|exact (proj2 Hcons _ _ Hc0)]).
Qed.

Lemma createPost_votesConsistent newId u found flt db :
  votesConsistent db → votesConsistent (snd (createPost newId u found flt db)).
Proof.
  unfold createPost, createPostBody. destruct found; simpl; [|done].
  run_handler. intros Hcons.
  destruct flt as [[[] msg]|]; simpl; try done;
    (apply (votesConsistent_intro db); simpl; [| |done];
      intros i d Hd; old_or_saved Hd; apply consistent_fresh).
Qed.

Lemma createComment_votesConsistent newId now u pid parent flt db :
  votesConsistent db →
  votesConsistent (snd (createComment newId now u pid parent flt db)).
Proof.
  unfold createComment, createCommentBody. run_handler. intros Hcons.
  destruct flt as [[[] msg]|]; simpl;
    (destruct (posts db !! pid) as [p0|] eqn:Hp0; simpl; [|done]); try done;
    (destruct parent as [par|]; simpl;
      [destruct (comments db !! par) as [pc|]; simpl; try done|]); try done;
    (apply (votesConsistent_intro db); simpl; [| |done];
      intros i d Hd; old_or_saved Hd;
      first [apply consistent_fresh | exact (proj1 Hcons _ _ Hp0)]).
Qed.

Lemma deleteComment_votesConsistent u id flt db :
  votesConsistent db → votesConsistent (snd (deleteComment u id flt db)).
Proof.
  unfold deleteComment, deleteCommentBody. run_handler2. intros Hcons.
  destruct flt as [[[] msg]|]; simpl;
    (destruct (comments db !! id) as [c0|] eqn:Hc0; simpl; [|done]); try done;
    (destruct (decide (comment_author c0 ≠ u)); simpl; [done|]); try done;
    try (destruct (posts db !! comment_post c0) as [p0|] eqn:Hp0; simpl);
    (apply (votesConsistent_intro db); simpl; [| |done];
      intros i d Hd; old_or_saved Hd; exact (proj1 Hcons _ _ Hp0)).
Qed.

Lemma deletePost_votesConsistent u id flt db :
  votesConsistent db → votesConsistent (snd (deletePost u id flt db)).
Proof.
  unfold deletePost, deletePostBody. run_handler2. intros Hcons.
  destruct flt as [[[] msg]|]; simpl;
    (destruct (posts db !! id) as [p0|] eqn:Hp0; simpl; [|done]); try done;
    (destruct (decide (post_author p0 ≠ u)); simpl; [done|]); try done;
    (apply (votesConsistent_intro db); simpl; [| |done];
      intros i d Hd; old_or_saved Hd).
Qed.

Lemma reachable_votesConsistent db : reachable db → votesConsistent db.
Proof.
  induction 1 as [|db r flt Hr IH].
  - split; intros id d Hd; simpl in Hd; by rewrite lookup_empty in Hd.
  - destruct r; simpl.
    + by apply votePost_votesConsistent.
    + by apply voteComment_votesConsistent.
    + by apply createPost_votesConsistent.
    + by apply createComment_votesConsistent.
    + by apply deleteComment_votesConsistent.
    + by apply deletePost_votesConsistent.
Qed.

Lemma consistent_reflected u t : consistent t → reflected u t.
Proof.
  intros [Hnd Hvs Hup Hdown]. unfold reflected.
  rewrite Hup, Hdown. split_and!; try apply countVotes_nonneg.
  - intros Hr. destruct (recorded_inv u (voters t)) as (e & Hin & _ & He); [lia|].
    apply list_elem_of_split in Hin as (l1 & l2 & ->).
    rewrite countVotes_app, countVotes_cons, decide_True by congruence.
    pose proof (countVotes_nonneg 1 l1). pose proof (countVotes_nonneg 1 l2). lia.
  - intros Hr. destruct (recorded_inv u (voters t)) as (e & Hin & _ & He); [lia|].
    apply list_elem_of_split in Hin as (l1 & l2 & ->).
    rewrite countVotes_app, countVotes_cons, decide_True by congruence.
    pose proof (countVotes_nonneg (-1) l1). pose proof (countVotes_nonneg (-1) l2). lia.
Qed.

(** ** The theorems at concrete stores *)

(** C2 at the scenario, on the fresh post 10 and the fresh comment 20. *)
Lemma C2_counter_conservation_witness :
  (∃ p', posts (castAll (λ u v, votePost u 10%nat v None) scenario freshDB) !! 10%nat
           = Some p' ∧
         upvotes (post_votes p') = Z.of_nat (length (usersVoting 1 scenario)) ∧
         downvotes (post_votes p') = Z.of_nat (length (usersVoting (-1) scenario)) ∧
         consistent (post_votes p')) ∧
  (∃ c', comments (castAll (λ u v, voteComment u 20%nat v None) scenario freshDB) !! 20%nat
           = Some c' ∧
         upvotes (comment_votes c') = Z.of_nat (length (usersVoting 1 scenario)) ∧
         downvotes (comment_votes c') = Z.of_nat (length (usersVoting (-1) scenario)) ∧
         consistent (comment_votes c')).
Proof.
  split.
  - apply (proj1 (C2_counter_conservation scenario freshDB 10%nat)
             (mkPost 1%nat 0 fresh)); vm_compute; reflexivity.
  - apply (proj2 (C2_counter_conservation scenario freshDB 20%nat)
             (mkComment 1%nat 10%nat None 5 fresh)); vm_compute; reflexivity.
Defined.

(** C3 for user 2 up-voting post 10 and comment 20 of [karmaDB] twice. *)
Lemma C3_castVote_idempotent_witness :
  votePost 2%nat 10%nat 1 None (snd (votePost 2%nat 10%nat 1 None karmaDB))
    = votePost 2%nat 10%nat 1 None karmaDB ∧
  voteComment 2%nat 20%nat 1 None (snd (voteComment 2%nat 20%nat 1 None karmaDB))
    = voteComment 2%nat 20%nat 1 None karmaDB.
Proof.
  split.
  - apply (proj1 (C3_castVote_idempotent karmaDB 2%nat 10%nat 1 eq_refl)
             (mkPost 1%nat 0 (mkVotes 0 0 []))).
    + vm_compute; reflexivity.
    + simpl. apply NoDup_nil_2.
  - apply (proj2 (C3_castVote_idempotent karmaDB 2%nat 20%nat 1 eq_refl)
             (mkComment 1%nat 10%nat None 5 (mkVotes 1 0 [mkVoter 2%nat 1]))).
    + vm_compute; reflexivity.
    + simpl. apply NoDup_singleton.
Defined.

(** C4 (amended) for user 2 retracting the up vote on comment 20 of
    [karmaDB], and casting a down vote on the fresh post 10 of
    [freshDB]. *)
Lemma C4_counters_stay_nonneg_witness :
  (0 ≤ upvotes (post_votes (mkPost 1%nat 0 (mkVotes 0 1 [mkVoter 2%nat (-1)]))) ∧
   0 ≤ downvotes (post_votes (mkPost 1%nat 0 (mkVotes 0 1 [mkVoter 2%nat (-1)])))) ∧
  (0 ≤ upvotes (comment_votes (mkComment 1%nat 10%nat None 5 fresh)) ∧
   0 ≤ downvotes (comment_votes (mkComment 1%nat 10%nat None 5 fresh))).
Proof.
  split.
  - apply (proj1 (C4_counters_stay_nonneg freshDB 2%nat 10%nat (-1) None)
             (mkPost 1%nat 0 fresh)).
    + vm_compute; reflexivity.
    + unfold reflected, recorded. simpl. lia.
    + vm_compute; reflexivity.
  - apply (proj2 (C4_counters_stay_nonneg karmaDB 2%nat 20%nat 0 None)
             (mkComment 1%nat 10%nat None 5 (mkVotes 1 0 [mkVoter 2%nat 1]))).
    + vm_compute; reflexivity.
    + unfold reflected, recorded. simpl. lia.
    + vm_compute; reflexivity.
Defined.

(** C6 for the value 2, and for a valid cast on ids that are not in
    [freshDB]. *)
Lemma C6_rejected_cast_mutates_nothing_witness :
  (votePost 2%nat 10%nat 2 None freshDB = (Message 400 "Invalid vote value", freshDB) ∧
   voteComment 2%nat 10%nat 2 None freshDB = (Message 400 "Invalid vote value", freshDB)) ∧
  votePost 2%nat 77%nat 1 None freshDB = (Message 404 "Post not found", freshDB) ∧
  voteComment 2%nat 77%nat 1 None freshDB = (Message 404 "Comment not found", freshDB).
Proof.
  split; [|split].
  - apply (proj1 (C6_rejected_cast_mutates_nothing freshDB 2%nat 10%nat 2 None)).
    reflexivity.
  - apply (proj1 (proj2 (C6_rejected_cast_mutates_nothing freshDB 2%nat 77%nat 1 None))).
    + reflexivity.
    + vm_compute; reflexivity.
    + intros [msg Hmsg]. discriminate Hmsg.
  - apply (proj2 (proj2 (C6_rejected_cast_mutates_nothing freshDB 2%nat 77%nat 1 None))).
    + reflexivity.
    + vm_compute; reflexivity.
    + intros [msg Hmsg]. discriminate Hmsg.
Defined.

(** C8 (amended) for user 2 up-voting post 10 and comment 20 of
    [karmaDB] while the save of the author rejects. *)
Lemma C8_karma_failure_answers_400_witness :
  votePost 2%nat 10%nat 1 (Some (UserSave, "write failed")) karmaDB
    = (Message 400 "write failed",
       savedPost 10%nat 2%nat 1 (mkPost 1%nat 0 (mkVotes 0 0 [])) karmaDB) ∧
  voteComment 2%nat 20%nat 1 (Some (UserSave, "write failed")) karmaDB
    = (Message 400 "write failed",
       savedComment 20%nat 2%nat 1
         (mkComment 1%nat 10%nat None 5 (mkVotes 1 0 [mkVoter 2%nat 1])) karmaDB).
Proof.
  split.
  - apply (proj1 (C8_karma_failure_answers_400 karmaDB 2%nat 10%nat 1 UserSave
                    "write failed" eq_refl) _ (mkUser 1)).
    + vm_compute; reflexivity.
    + vm_compute; reflexivity.
    + unfold karmaCallsPost. do 2 apply list_elem_of_further. apply list_elem_of_here.
  - apply (proj2 (C8_karma_failure_answers_400 karmaDB 2%nat 20%nat 1 UserSave
                    "write failed" eq_refl) _ (mkUser 1)).
    + vm_compute; reflexivity.
    + vm_compute; reflexivity.
    + unfold karmaCallsComment. do 3 apply list_elem_of_further. apply list_elem_of_here.
Defined.

(** C9 (amended) for user 3, who has no vote on post 10 nor on
    comment 20 of [karmaDB], whose author is user 1. *)
Lemma C9_zero_vote_rewrites_only_karma_witness :
  (fst (votePost 3%nat 10%nat 0 None karmaDB) = VoteRecorded 0 0 ∧
   posts (snd (votePost 3%nat 10%nat 0 None karmaDB)) = posts karmaDB ∧
   comments (snd (votePost 3%nat 10%nat 0 None karmaDB)) = comments karmaDB ∧
   users (snd (votePost 3%nat 10%nat 0 None karmaDB)) !! 2%nat = users karmaDB !! 2%nat ∧
   ∃ k, users (snd (votePost 3%nat 10%nat 0 None karmaDB)) !! 1%nat
          = Some (set_karma k (mkUser 1))) ∧
  (fst (voteComment 3%nat 20%nat 0 None karmaDB) = VoteRecorded 1 0 ∧
   posts (snd (voteComment 3%nat 20%nat 0 None karmaDB)) = posts karmaDB ∧
   comments (snd (voteComment 3%nat 20%nat 0 None karmaDB)) = comments karmaDB ∧
   users (snd (voteComment 3%nat 20%nat 0 None karmaDB)) !! 2%nat
     = users karmaDB !! 2%nat ∧
   users (snd (voteComment 3%nat 20%nat 0 None karmaDB)) !! 1%nat
     = Some (set_karma (totalKarma 1%nat karmaDB) (mkUser 1))).
Proof.
  split.
  - destruct (proj1 (C9_zero_vote_rewrites_only_karma karmaDB 3%nat 10%nat) karmaPost)
      as (Hr & Hp & Hc & Hother & _ & Hauthor).
    + vm_compute; reflexivity.
    + simpl. apply not_elem_of_nil.
    + split_and!; [exact Hr|exact Hp|exact Hc| |].
      * apply Hother. simpl. lia.
      * apply Hauthor. vm_compute; reflexivity.
  - destruct (proj2 (C9_zero_vote_rewrites_only_karma karmaDB 3%nat 20%nat) karmaComment)
      as (Hr & Hp & Hc & Hother & _ & Hauthor).
    + vm_compute; reflexivity.
    + simpl. intros Hin%list_elem_of_singleton. discriminate Hin.
    + split_and!; [exact Hr|exact Hp|exact Hc| |].
      * apply Hother. simpl. lia.
      * apply Hauthor. vm_compute; reflexivity.
Defined.

(** C5 on [threadDB]. *)
Lemma C5_roots_newest_first_replies_oldest_first_witness :
  (∃ forest,
     Json 200
       [ Node 13%nat (mkComment 1%nat 7%nat None 3 fresh) [];
         Node 12%nat (mkComment 1%nat 7%nat None 2 fresh) [];
         Node 11%nat (mkComment 1%nat 7%nat None 1 fresh)
           [ Node 14%nat (mkComment 1%nat 7%nat (Some 11%nat) 4 fresh) [];
             Node 15%nat (mkComment 1%nat 7%nat (Some 11%nat) 5 fresh) [] ] ]
       = Json 200 forest ∧
     StronglySorted newestFirst (nodeDoc <$> forest) ∧
     nodeDoc <$> forest
       ≡ₚ filter (isRootOf 7%nat) (map_to_list (comments threadDB)) ∧
     Forall (thread threadDB) forest) ∧
  (∃ fuel0, ∀ fuel, (fuel0 ≤ fuel)%nat → is_Some (getComments fuel 7%nat threadDB)).
Proof.
  split.
  - apply (proj1 (C5_roots_newest_first_replies_oldest_first threadDB 7%nat) 2%nat).
    vm_compute; reflexivity.
  - apply (proj2 (C5_roots_newest_first_replies_oldest_first threadDB 7%nat)
             threadHeight).
    apply (bool_decide_unpack _). vm_compute. exact I.
Defined.

(** C7 on [threadDB], whose only post is 7. *)
Lemma C7_unknown_post_empty_forest_witness :
  getComments 1 99%nat threadDB = Some (Json 200 []).
Proof.
  apply (C7_unknown_post_empty_forest threadDB 99%nat 0%nat).
  - apply (bool_decide_unpack _). vm_compute. exact I.
  - vm_compute; reflexivity.
Defined.

(** C10 on [freshDB]: user 1 deletes comment 20 of post 10, whose
    [commentCount] is [0]. *)
Lemma C10_commentCount_floor_witness :
  (posts freshDB !! 10%nat = Some (mkPost 1%nat 0 fresh) ∨
   0 ≤ commentCount (mkPost 1%nat 0 fresh)) ∧
  (fst (deleteComment 1%nat 20%nat None freshDB)
     = Message 200 "Comment deleted successfully" ∧
   ∃ p', posts (snd (deleteComment 1%nat 20%nat None freshDB)) !! 10%nat = Some p' ∧
         commentCount p' = Z.max 0 (0 - 1) ∧ 0 ≤ commentCount p').
Proof.
  split.
  - apply (proj1 (C10_commentCount_floor freshDB 1%nat 20%nat) None).
    vm_compute; reflexivity.
  - apply (proj2 (C10_commentCount_floor freshDB 1%nat 20%nat)
             (mkComment 1%nat 10%nat None 5 fresh) (mkPost 1%nat 0 fresh));
      vm_compute; reflexivity.
Defined.

(** * Further properties of the handlers *)

(** ** What one cast does to its target *)

Lemma applyVote_counters u v t :
  validVote v = true →
  upvotes (applyVote u v t)
    = upvotes t - counts (recorded u (voters t)) 1 + counts v 1 ∧
  downvotes (applyVote u v t)
    = downvotes t - counts (recorded u (voters t)) (-1) + counts v (-1).
Proof.
  intros Hv%validVote_spec. unfold applyVote, recorded, counts.
  destruct (findVoter u (voters t)) as [[i e]|];
    unfold removeVote, addVote; repeat case_decide; simpl; lia.
Qed.

(** X1.  A cast that runs to completion changes each counter of its
    target by the difference between the value cast and the value that
    was stored for the caller: [upvotes] loses one if an up vote was
    stored and gains one if the cast is an up vote, [downvotes]
    likewise; and the answer carries the counters as stored.  For posts
    and for comments. *)
Theorem X1_cast_moves_counters_by_difference (db : DB) (u id : ObjectId) (v : Z) :
  validVote v = true →
  (∀ p, posts db !! id = Some p →
     ∃ p', posts (snd (votePost u id v None db)) !! id = Some p' ∧
           upvotes (post_votes p')
             = upvotes (post_votes p)
               - counts (recorded u (voters (post_votes p))) 1 + counts v 1 ∧
           downvotes (post_votes p')
             = downvotes (post_votes p)
               - counts (recorded u (voters (post_votes p))) (-1) + counts v (-1) ∧
           fst (votePost u id v None db)
             = VoteRecorded (upvotes (post_votes p')) (downvotes (post_votes p'))) ∧
  (∀ c, comments db !! id = Some c →
     ∃ c', comments (snd (voteComment u id v None db)) !! id = Some c' ∧
           upvotes (comment_votes c')
             = upvotes (comment_votes c)
               - counts (recorded u (voters (comment_votes c))) 1 + counts v 1 ∧
           downvotes (comment_votes c')
             = downvotes (comment_votes c)
               - counts (recorded u (voters (comment_votes c))) (-1) + counts v (-1) ∧
           fst (voteComment u id v None db)
             = VoteRecorded (upvotes (comment_votes c')) (downvotes (comment_votes c'))).
Proof.
  intros Hv. split.
  - intros p Hp. exists (votedPost u v p).
    destruct (votePost_posts u id v p db Hv Hp) as [-> _].
    rewrite lookup_insert_eq, (votePost_run u id v p db) by done.
    destruct (applyVote_counters u v (post_votes p) Hv) as [Hup Hdown].
    split_and!; done.
  - intros c Hc. exists (votedComment u v c).
    destruct (voteComment_comments u id v c db Hv Hc) as [-> _].
    rewrite lookup_insert_eq, (voteComment_run u id v c db) by done.
    destruct (applyVote_counters u v (comment_votes c) Hv) as [Hup Hdown].
    split_and!; done.
Qed.

(** X2.  After a cast that runs to completion on a target with at most
    one entry per user, the vote stored for the caller is the value cast
    ([0] meaning no entry) and the vote stored for every other user is
    what it was.  For posts and for comments. *)
Theorem X2_cast_stores_the_value_cast (db : DB) (u id : ObjectId) (v : Z) :
  validVote v = true →
  (∀ p, posts db !! id = Some p → NoDup (user <$> voters (post_votes p)) →
     ∃ p', posts (snd (votePost u id v None db)) !! id = Some p' ∧
           recorded u (voters (post_votes p')) = v ∧
           ∀ u', u' ≠ u →
             recorded u' (voters (post_votes p')) = recorded u' (voters (post_votes p))) ∧
  (∀ c, comments db !! id = Some c → NoDup (user <$> voters (comment_votes c)) →
     ∃ c', comments (snd (voteComment u id v None db)) !! id = Some c' ∧
           recorded u (voters (comment_votes c')) = v ∧
           ∀ u', u' ≠ u →
             recorded u' (voters (comment_votes c'))
               = recorded u' (voters (comment_votes c))).
Proof.
  intros Hv. split.
  - intros p Hp Hnd. exists (votedPost u v p).
    destruct (votePost_posts u id v p db Hv Hp) as [-> _].
    rewrite lookup_insert_eq. simpl. split_and!; [done| |].
    + rewrite applyVote_recorded by done. by rewrite decide_True.
    + intros u' Hne. rewrite applyVote_recorded by done. by rewrite decide_False.
  - intros c Hc Hnd. exists (votedComment u v c).
    destruct (voteComment_comments u id v c db Hv Hc) as [-> _].
    rewrite lookup_insert_eq. simpl. split_and!; [done| |].
    + rewrite applyVote_recorded by done. by rewrite decide_True.
    + intros u' Hne. rewrite applyVote_recorded by done. by rewrite decide_False.
Qed.

Lemma applyVote_retract u v t :
  v = 1 ∨ v = -1 → u ∉ user <$> voters t →
  applyVote u 0 (applyVote u v t) = t.
Proof.
  intros Hv Hn. rewrite (applyVote_absent u v t) by done.
  rewrite decide_True by lia.
  rewrite (applyVote_found u 0 _ (voters t) (mkVoter u v) []).
  - rewrite decide_True by done. rewrite app_nil_r.
    destruct t as [up down vs]. unfold addVote, removeVote.
    destruct Hv as [-> | ->]; simpl; unfold set_voters; simpl; f_equal; lia.
  - by rewrite voters_addVote.
  - apply Forall_forall. intros x Hx Hux. apply Hn.
    apply list_elem_of_fmap. eauto.
  - done.
Qed.

(** X3.  A vote and its retraction cancel: when a user without an entry
    on the target casts an up or a down vote and then casts [0], both
    casts running to completion, every post and every comment of the
    store is again what it was before the two casts.  For posts and for
    comments. *)
Theorem X3_vote_then_retract_restores_target (db : DB) (u id : ObjectId) (v : Z) :
  v = 1 ∨ v = -1 →
  (∀ p, posts db !! id = Some p → u ∉ user <$> voters (post_votes p) →
     let db' := snd (votePost u id 0 None (snd (votePost u id v None db))) in
     posts db' = posts db ∧ comments db' = comments db) ∧
  (∀ c, comments db !! id = Some c → u ∉ user <$> voters (comment_votes c) →
     let db' := snd (voteComment u id 0 None (snd (voteComment u id v None db))) in
     posts db' = posts db ∧ comments db' = comments db).
Proof.
  intros Hv.
  assert (validVote v = true) as Hvalid by (apply validVote_spec; lia).
  split.
  - intros p Hp Hn db'. subst db'.
    destruct (votePost_posts u id v p db Hvalid Hp) as [Hp1 Hc1].
    destruct (votePost_posts u id 0 (votedPost u v p)
                (snd (votePost u id v None db)) eq_refl) as [Hp2 Hc2].
    { rewrite Hp1. apply lookup_insert_eq. }
    rewrite Hp2, Hc2, Hp1, Hc1. split; [|done].
    rewrite insert_insert_eq.
    assert (votedPost u 0 (votedPost u v p) = p) as ->.
    { unfold votedPost, set_votes_post. simpl.
      rewrite applyVote_retract by done. by destruct p. }
    by apply insert_id.
  - intros c Hc Hn db'. subst db'.
    destruct (voteComment_comments u id v c db Hvalid Hc) as [Hc1 Hp1].
    destruct (voteComment_comments u id 0 (votedComment u v c)
                (snd (voteComment u id v None db)) eq_refl) as [Hc2 Hp2].
    { rewrite Hc1. apply lookup_insert_eq. }
    rewrite Hp2, Hc2, Hp1, Hc1. split; [done|].
    rewrite insert_insert_eq.
    assert (votedComment u 0 (votedComment u v c) = c) as ->.
    { unfold votedComment, set_votes_comment. simpl.
      rewrite applyVote_retract by done. by destruct c. }
    by apply insert_id.
Qed.

(** ** What a cast leaves alone *)

Lemma votePost_store_cases u id v flt db :
  snd (votePost u id v flt db) = db ∨
  ∃ p, posts db !! id = Some p ∧
       (snd (votePost u id v flt db) = savedPost id u v p db ∨
        snd (votePost u id v flt db)
          = storeKarma (post_author p)
              (postsKarma (post_author p) (savedPost id u v p db))
              (savedPost id u v p db)).
Proof.
  unfold votePost, votePostBody. destruct (validVote v); simpl; [|by left].
  run_handler.
  destruct flt as [[[] msg]|]; simpl;
    (destruct (posts db !! id) as [p|] eqn:Hp; simpl; [|by left]);
    try (by left);
    right; exists p; (split; [done|]);
    unfold storeKarma, savedPost; simpl;
    destruct (users db !! post_author p); simpl; auto.
Qed.

Lemma voteComment_store_cases u id v flt db :
  snd (voteComment u id v flt db) = db ∨
  ∃ c, comments db !! id = Some c ∧
       (snd (voteComment u id v flt db) = savedComment id u v c db ∨
        snd (voteComment u id v flt db)
          = storeKarma (comment_author c)
              (postsKarma (comment_author c) (savedComment id u v c db)
               + commentsKarma (comment_author c) (savedComment id u v c db))
              (savedComment id u v c db)).
Proof.
  unfold voteComment, voteCommentBody. destruct (validVote v); simpl; [|by left].
  run_handler.
  destruct flt as [[[] msg]|]; simpl;
    (destruct (comments db !! id) as [c|] eqn:Hc; simpl; [|by left]);
    try (by left);
    right; exists c; (split; [done|]);
    unfold storeKarma, savedComment; simpl;
    destruct (users db !! comment_author c); simpl; auto.
Qed.

(** X4.  A vote on a post, whichever store call rejects, changes
    nothing but the vote fields of that post and the karma of its
    author: every other post, every comment, the post's author and
    [commentCount], and every user who is not the author are as
    before. *)
Theorem X4_votePost_frame (db : DB) (u id : ObjectId) (v : Z)
    (flt : option (Await * string)) :
  let db' := snd (votePost u id v flt db) in
  (∀ id', id' ≠ id → posts db' !! id' = posts db !! id') ∧
  comments db' = comments db ∧
  (∀ p, posts db !! id = Some p →
     ∃ p', posts db' !! id = Some p' ∧
           post_author p' = post_author p ∧ commentCount p' = commentCount p) ∧
  (∀ p b, posts db !! id = Some p → b ≠ post_author p →
     users db' !! b = users db !! b).
Proof.
  intros db'. subst db'.
  destruct (votePost_store_cases u id v flt db) as [->|(p & Hp & [-> | ->])].
  - split_and!; [done|done| |done]. intros p Hp. by exists p.
  - unfold savedPost. simpl. split_and!; [|done| |done].
    + intros id' Hne. by rewrite lookup_insert_ne.
    + intros p0 Hp0. assert (p0 = p) as -> by congruence.
      exists (votedPost u v p). by rewrite lookup_insert_eq.
  - rewrite posts_storeKarma, comments_storeKarma.
    unfold savedPost at 1 2 3. simpl. split_and!; [|done| |].
    + intros id' Hne. by rewrite lookup_insert_ne.
    + intros p0 Hp0. assert (p0 = p) as -> by congruence.
      exists (votedPost u v p). by rewrite lookup_insert_eq.
    + intros p0 b Hp0 Hb. assert (p0 = p) as -> by congruence.
      by rewrite users_storeKarma_other.
Qed.

(** X5.  The same for a vote on a comment: every post, every other
    comment, the comment's author, post, parent and creation time, and
    every user who is not the comment's author are as before, whichever
    store call rejects. *)
Theorem X5_voteComment_frame (db : DB) (u id : ObjectId) (v : Z)
    (flt : option (Await * string)) :
  let db' := snd (voteComment u id v flt db) in
  (∀ id', id' ≠ id → comments db' !! id' = comments db !! id') ∧
  posts db' = posts db ∧
  (∀ c, comments db !! id = Some c →
     ∃ c', comments db' !! id = Some c' ∧
           comment_author c' = comment_author c ∧ comment_post c' = comment_post c ∧
           parentId c' = parentId c ∧ createdAt c' = createdAt c) ∧
  (∀ c b, comments db !! id = Some c → b ≠ comment_author c →
     users db' !! b = users db !! b).
Proof.
  intros db'. subst db'.
  destruct (voteComment_store_cases u id v flt db) as [->|(c & Hc & [-> | ->])].
  - split_and!; [done|done| |done]. intros c Hc. by exists c.
  - unfold savedComment. simpl. split_and!; [|done| |done].
    + intros id' Hne. by rewrite lookup_insert_ne.
    + intros c0 Hc0. assert (c0 = c) as -> by congruence.
      exists (votedComment u v c). by rewrite lookup_insert_eq.
  - rewrite posts_storeKarma, comments_storeKarma.
    unfold savedComment at 1 2 3. simpl. split_and!; [|done| |].
    + intros id' Hne. by rewrite lookup_insert_ne.
    + intros c0 Hc0. assert (c0 = c) as -> by congruence.
      exists (votedComment u v c). by rewrite lookup_insert_eq.
    + intros c0 b Hc0 Hb. assert (c0 = c) as -> by congruence.
      by rewrite users_storeKarma_other.
Qed.

(** ** The karma a vote stores *)

(** X6.  After a vote on a comment that runs to completion, the stored
    karma of the comment's author, when that user exists, is the sum of
    [upvotes - downvotes] over all posts and all comments of the author
    in the resulting store. *)
Theorem X6_comment_vote_stores_total_karma (db : DB) (u id : ObjectId) (v : Z)
    (c : Comment) (usr : User) :
  validVote v = true → comments db !! id = Some c →
  users db !! comment_author c = Some usr →
  let db' := snd (voteComment u id v None db) in
  karma <$> users db' !! comment_author c = Some (totalKarma (comment_author c) db').
Proof.
  intros Hv Hc Hu. rewrite (voteComment_run u id v c db) by done. simpl.
  set (db1 := savedComment id u v c db).
  erewrite users_storeKarma_same by exact Hu. simpl.
  unfold totalKarma, postsKarma, commentsKarma.
  by rewrite posts_storeKarma, comments_storeKarma.
Qed.

(** X7.  After a vote on a post that runs to completion, the stored
    karma of the post's author, when that user exists, is the sum of
    [upvotes - downvotes] over the posts of the author in the resulting
    store; the author's comments do not enter it. *)
Theorem X7_post_vote_stores_posts_karma (db : DB) (u id : ObjectId) (v : Z)
    (p : Post) (usr : User) :
  validVote v = true → posts db !! id = Some p →
  users db !! post_author p = Some usr →
  let db' := snd (votePost u id v None db) in
  karma <$> users db' !! post_author p = Some (postsKarma (post_author p) db').
Proof.
  intros Hv Hp Hu. rewrite (votePost_run u id v p db) by done. simpl.
  erewrite users_storeKarma_same by exact Hu. simpl.
  unfold postsKarma. by rewrite posts_storeKarma.
Qed.

(** X8.  When the author of the target is not a stored user, a valid
    cast is still answered with success and the target is saved with
    the vote; the users collection is untouched.  For posts and for
    comments. *)
Theorem X8_vote_without_stored_author (db : DB) (u id : ObjectId) (v : Z) :
  validVote v = true →
  (∀ p, posts db !! id = Some p → users db !! post_author p = None →
     votePost u id v None db
       = (VoteRecorded (upvotes (post_votes (votedPost u v p)))
                       (downvotes (post_votes (votedPost u v p))),
          savedPost id u v p db)) ∧
  (∀ c, comments db !! id = Some c → users db !! comment_author c = None →
     voteComment u id v None db
       = (VoteRecorded (upvotes (comment_votes (votedComment u v c)))
                       (downvotes (comment_votes (votedComment u v c))),
          savedComment id u v c db)).
Proof.
  intros Hv. split.
  - intros p Hp Hu. rewrite (votePost_run u id v p db) by done.
    f_equal. cbv zeta. unfold storeKarma. simpl. by rewrite Hu.
  - intros c Hc Hu. rewrite (voteComment_run u id v c db) by done.
    f_equal. cbv zeta. unfold storeKarma. simpl. by rewrite Hu.
Qed.

(** ** Creating a comment *)

Lemma createComment_run newId now u pid parent p db :
  posts db !! pid = Some p → parentStored parent db →
  createComment newId now u pid parent None db
    = (Json 201 (newId, mkComment u pid parent now fresh),
       withNewComment newId (mkComment u pid parent now fresh) pid p db).
Proof.
  intros Hp Hpar. unfold createComment, createCommentBody. run_handler.
  rewrite Hp. simpl.
  destruct parent as [par|]; simpl; [|done].
  destruct Hpar as [pc Hpc]. by rewrite Hpc.
Qed.

(** X9.  Creating a comment on an id that is not a stored post is
    answered [404 Post not found], and creating a reply to an id that is
    not a stored comment is answered [404 Parent comment not found]; in
    both cases nothing is written. *)
Theorem X9_createComment_rejections (db : DB) (newId : ObjectId) (now : Z)
    (u pid : ObjectId) :
  (∀ parent flt, posts db !! pid = None → ¬ rejects PostFindById flt →
     createComment newId now u pid parent flt db
       = (Message 404 "Post not found", db)) ∧
  (∀ par p, posts db !! pid = Some p → comments db !! par = None →
     createComment newId now u pid (Some par) None db
       = (Message 404 "Parent comment not found", db)).
Proof.
  split.
  - intros parent flt Hp Hflt. unfold createComment, createCommentBody. run_handler.
    destruct flt as [[a msg]|]; simpl; [|by rewrite Hp].
    destruct (decide (a = PostFindById)) as [->|]; [|by rewrite Hp].
    exfalso. apply Hflt. by exists msg.
  - intros par p Hp Hpar. unfold createComment, createCommentBody. run_handler.
    rewrite Hp. simpl. by rewrite Hpar.
Qed.

(** X10.  A comment can be created on any stored post, without parent
    or as a reply to any stored comment, whichever post that comment
    belongs to.  The request is answered [201] with the new comment
    (author the caller, no votes); the comment is stored under its id,
    the post's [commentCount] grows by one, and nothing else changes. *)
Theorem X10_createComment_stores_and_counts (db : DB) (newId : ObjectId) (now : Z)
    (u pid : ObjectId) (parent : option ObjectId) (p : Post) :
  posts db !! pid = Some p → parentStored parent db →
  let c := mkComment u pid parent now fresh in
  let r := createComment newId now u pid parent None db in
  fst r = Json 201 (newId, c) ∧
  comments (snd r) !! newId = Some c ∧
  (∀ id, id ≠ newId → comments (snd r) !! id = comments db !! id) ∧
  posts (snd r) !! pid = Some (set_commentCount (commentCount p + 1) p) ∧
  (∀ id, id ≠ pid → posts (snd r) !! id = posts db !! id) ∧
  users (snd r) = users db.
Proof.
  intros Hp Hpar c r. subst c r.
  rewrite (createComment_run newId now u pid parent p db) by done.
  unfold withNewComment. simpl. split_and!; try done.
  - apply lookup_insert_eq.
  - intros id Hne. by rewrite lookup_insert_ne.
  - apply lookup_insert_eq.
  - intros id Hne. by rewrite lookup_insert_ne.
Qed.

(** X11.  Creating a comment under a fresh id and deleting it again, by
    its author and with all store calls resolving, gives back the store
    as it was, provided the post's [commentCount] was not negative. *)
Theorem X11_create_then_delete_restores_store (db : DB) (newId : ObjectId) (now : Z)
    (u pid : ObjectId) (parent : option ObjectId) (p : Post) :
  posts db !! pid = Some p → parentStored parent db →
  comments db !! newId = None → 0 ≤ commentCount p →
  deleteComment u newId None (snd (createComment newId now u pid parent None db))
    = (Message 200 "Comment deleted successfully", db).
Proof.
  intros Hp Hpar Hfresh Hcount.
  rewrite (createComment_run newId now u pid parent p db) by done.
  unfold deleteComment, deleteCommentBody, withNewComment. run_handler2.
  rewrite lookup_insert_eq. simpl.
  rewrite decide_False by (intros H; by apply H). simpl.
  rewrite lookup_insert_eq. simpl. f_equal.
  destruct db as [ps cs us]. unfold set_posts, set_comments. simpl in *.
  f_equal.
  - rewrite insert_insert_eq.
    replace (set_commentCount (Z.max 0 (commentCount p + 1 - 1))
               (set_commentCount (commentCount p + 1) p)) with p.
    + by apply insert_id.
    + destruct p as [a n t]. unfold set_commentCount. simpl in *. f_equal. lia.
  - rewrite delete_insert_eq. by apply delete_id.
Qed.

(** ** What the listing shows *)

Lemma findRoots_elem postId db d :
  d ∈ findRoots postId db ↔
  comments db !! d.1 = Some d.2 ∧ comment_post d.2 = postId ∧ parentId d.2 = None.
Proof.
  rewrite findRoots_perm, list_elem_of_filter. unfold isRootOf.
  destruct d as [k c]. rewrite elem_of_map_to_list. simpl. tauto.
Qed.

Lemma forestDocs_cons n forest :
  forestDocs (n :: forest) = nodeDocs n ++ forestDocs forest.
Proof. done. Qed.

(** Every comment of what [populateReplies] returns is one of the given
    comments or a stored reply to a stored comment. *)
Lemma populateReplies_docs db fuel : ∀ cs forest,
  populateReplies fuel db cs = Some forest →
  (∀ d, d ∈ cs → is_Some (comments db !! d.1)) →
  ∀ d, d ∈ forestDocs forest →
    d ∈ cs ∨
    (comments db !! d.1 = Some d.2 ∧
     ∃ q, parentId d.2 = Some q ∧ is_Some (comments db !! q)).
Proof.
  induction fuel as [|fuel IH]; intros cs forest; simpl; [done|].
  intros HF%mapM_Some.
  induction HF as [|d0 n cs forest Hd0 HF IHF]; intros Hcs d Hd.
  - by apply elem_of_nil in Hd.
  - rewrite forestDocs_cons in Hd. apply elem_of_app in Hd as [Hd|Hd].
    + destruct (decide (0 < length (findReplies d0.1 db))%nat).
      * destruct (populateReplies fuel db (findReplies d0.1 db)) as [rs|] eqn:Hrs;
          [|done].
        injection Hd0 as <-. simpl in Hd.
        apply elem_of_cons in Hd as [->|Hd].
        { left. destruct d0. left. }
        right.
        destruct (IH _ _ Hrs) with (d := d) as [Hin|Hdeep].
        { intros r [Hr _]%findReplies_elem. by eexists. }
        { exact Hd. }
        { apply findReplies_elem in Hin as [Hstored Hpar].
          split; [done|]. exists d0.1. split; [done|].
          apply Hcs. left. }
        { exact Hdeep. }
      * injection Hd0 as <-. simpl in Hd.
        apply elem_of_cons in Hd as [->|Hd]; [|by apply elem_of_nil in Hd].
        left. destruct d0. left.
    + destruct (IHF (λ x Hx, Hcs x (list_elem_of_further _ _ _ Hx)) d Hd)
        as [Hin|Hdeep]; [left; by right|by right].
Qed.

Lemma getComments_docs db fuel postId forest d :
  getComments fuel postId db = Some (Json 200 forest) →
  d ∈ forestDocs forest →
  comments db !! d.1 = Some d.2 ∧
  match parentId d.2 with
  | None => comment_post d.2 = postId
  | Some q => is_Some (comments db !! q)
  end.
Proof.
  unfold getComments.
  destruct (populateReplies fuel db (findRoots postId db)) as [f|] eqn:Hf;
    simpl; [|done].
  intros [= <-] Hd.
  destruct (populateReplies_docs db fuel _ _ Hf) with (d := d) as [Hroot|Hdeep].
  - intros r [Hr _]%findRoots_elem. by eexists.
  - exact Hd.
  - apply findRoots_elem in Hroot as (Hs & Hp & Hn). by rewrite Hn.
  - destruct Hdeep as (Hs & q & Hq & Hqs). by rewrite Hq.
Qed.

(** X12.  Every comment that a listing shows, at any depth, is a stored
    comment, and it is either a comment of the requested post without
    parent or a reply whose parent is itself stored. *)
Theorem X12_listing_shows_stored_comments (db : DB) (fuel : nat)
    (postId : ObjectId) (forest : list CommentNode) (d : ObjectId * Comment) :
  getComments fuel postId db = Some (Json 200 forest) →
  d ∈ forestDocs forest →
  comments db !! d.1 = Some d.2 ∧
  match parentId d.2 with
  | None => comment_post d.2 = postId
  | Some q => is_Some (comments db !! q)
  end.
Proof.
  unfold getComments.
  destruct (populateReplies fuel db (findRoots postId db)) as [f|] eqn:Hf;
    simpl; [|done].
  intros [= <-] Hd.
  destruct (populateReplies_docs db fuel _ _ Hf) with (d := d) as [Hroot|Hdeep].
  - intros r [Hr _]%findRoots_elem. by eexists.
  - exact Hd.
  - apply findRoots_elem in Hroot as (Hs & Hp & Hn). by rewrite Hn.
  - destruct Hdeep as (Hs & q & Hq & Hqs). by rewrite Hq.
Qed.

(** X13.  A comment created without parent on a stored post is among
    the roots of every listing of that post made afterwards. *)
Theorem X13_created_root_is_listed (db : DB) (newId : ObjectId) (now : Z)
    (u pid : ObjectId) (p : Post) (fuel : nat) (forest : list CommentNode) :
  posts db !! pid = Some p →
  getComments fuel pid (snd (createComment newId now u pid None None db))
    = Some (Json 200 forest) →
  (newId, mkComment u pid None now fresh) ∈ nodeDoc <$> forest.
Proof.
  intros Hp. rewrite (createComment_run newId now u pid None p db) by done.
  unfold getComments. cbn [snd].
  destruct (populateReplies fuel _ (findRoots pid _)) as [f|] eqn:Hf; simpl; [|done].
  intros [= <-].
  destruct (populateReplies_thread _ _ _ _ Hf) as [-> _].
  apply findRoots_elem. simpl. split_and!; [|done..].
  apply lookup_insert_eq.
Qed.

(** ** Deleting a comment *)

(** X14.  Deleting a comment that is not stored is answered [404], and
    deleting a comment of another author [403]; in both cases nothing
    is written. *)
Theorem X14_deleteComment_rejections (db : DB) (u id : ObjectId)
    (flt : option (Await * string)) :
  ¬ rejects CommentFindById flt →
  (comments db !! id = None →
     deleteComment u id flt db = (Message 404 "Comment not found", db)) ∧
  (∀ c, comments db !! id = Some c → comment_author c ≠ u →
     deleteComment u id flt db
       = (Message 403 "Not authorized to delete this comment", db)).
Proof.
  intros Hflt.
  assert (Hfind : ∀ a msg, flt = Some (a, msg) → a ≠ CommentFindById).
  { intros a msg -> ->. apply Hflt. by exists msg. }
  split.
  - intros Hc. unfold deleteComment, deleteCommentBody. run_handler2.
    destruct flt as [[a msg]|]; simpl; [|by rewrite Hc].
    rewrite decide_False by eauto. by rewrite Hc.
  - intros c Hc Hne. unfold deleteComment, deleteCommentBody. run_handler2.
    destruct flt as [[a msg]|]; simpl.
    + rewrite decide_False by eauto. rewrite Hc. simpl. by rewrite decide_True.
    + rewrite Hc. simpl. by rewrite decide_True.
Qed.

Lemma deleteComment_run u id c db :
  comments db !! id = Some c → comment_author c = u →
  deleteComment u id None db
    = (Message 200 "Comment deleted successfully",
       match posts db !! comment_post c with
       | Some p =>
           mkDB (<[comment_post c := set_commentCount (Z.max 0 (commentCount p - 1)) p]>
                   (posts db))
                (delete id (comments db)) (users db)
       | None => mkDB (posts db) (delete id (comments db)) (users db)
       end).
Proof.
  intros Hc Ha. unfold deleteComment, deleteCommentBody. run_handler2.
  rewrite Hc. simpl. rewrite decide_False by (intros H; by apply H). simpl.
  by destruct (posts db !! comment_post c).
Qed.

(** X15.  When its author deletes a comment, only that comment leaves
    the store: every other comment, its replies included, stays as it
    is.  The replies keep pointing to the deleted comment, and no
    listing made afterwards shows them. *)
Theorem X15_deleteComment_orphans_replies (db : DB) (u id : ObjectId) (c : Comment) :
  comments db !! id = Some c → comment_author c = u →
  let db' := snd (deleteComment u id None db) in
  comments db' = delete id (comments db) ∧
  ∀ r rc, comments db !! r = Some rc → parentId rc = Some id → r ≠ id →
    comments db' !! r = Some rc ∧
    ∀ fuel postId forest,
      getComments fuel postId db' = Some (Json 200 forest) →
      (r, rc) ∉ forestDocs forest.
Proof.
  intros Hc Ha db'. subst db'.
  rewrite (deleteComment_run u id c db) by done. cbn [snd].
  assert (Hcs : comments
            match posts db !! comment_post c with
            | Some p =>
                mkDB (<[comment_post c := set_commentCount (Z.max 0 (commentCount p - 1)) p]>
                        (posts db))
                     (delete id (comments db)) (users db)
            | None => mkDB (posts db) (delete id (comments db)) (users db)
            end = delete id (comments db)).
  { by destruct (posts db !! comment_post c). }
  split; [done|].
  intros r rc Hr Hpar Hne. split.
  - rewrite Hcs. by rewrite lookup_delete_ne.
  - intros fuel postId forest Hlist Hin.
    destruct (getComments_docs _ _ _ _ _ Hlist Hin) as [_ Hparent].
    simpl in Hparent. rewrite Hpar, Hcs, lookup_delete_eq in Hparent.
    by destruct Hparent.
Qed.

(** ** Deleting a post *)

(** X16.  Deleting a post that is not stored is answered [404], and
    deleting a post of another author [403]; in both cases nothing is
    written. *)
Theorem X16_deletePost_rejections (db : DB) (u id : ObjectId)
    (flt : option (Await * string)) :
  ¬ rejects PostFindById flt →
  (posts db !! id = None →
     deletePost u id flt db = (Message 404 "Post not found", db)) ∧
  (∀ p, posts db !! id = Some p → post_author p ≠ u →
     deletePost u id flt db
       = (Message 403 "Not authorized to delete this post", db)).
Proof.
  intros Hflt.
  assert (Hfind : ∀ a msg, flt = Some (a, msg) → a ≠ PostFindById).
  { intros a msg -> ->. apply Hflt. by exists msg. }
  split.
  - intros Hp. unfold deletePost, deletePostBody. run_handler2.
    destruct flt as [[a msg]|]; simpl; [|by rewrite Hp].
    rewrite decide_False by eauto. by rewrite Hp.
  - intros p Hp Hne. unfold deletePost, deletePostBody. run_handler2.
    destruct flt as [[a msg]|]; simpl.
    + rewrite decide_False by eauto. rewrite Hp. simpl. by rewrite decide_True.
    + rewrite Hp. simpl. by rewrite decide_True.
Qed.

Lemma deletePost_run u id p db :
  posts db !! id = Some p → post_author p = u →
  deletePost u id None db
    = (Message 200 "Post deleted successfully",
       mkDB (delete id (posts db))
            (filter (λ kc, comment_post kc.2 ≠ id) (comments db)) (users db)).
Proof.
  intros Hp Ha. unfold deletePost, deletePostBody. run_handler2.
  rewrite Hp. simpl. by rewrite decide_False by (intros H; by apply H).
Qed.

(** X17.  When its author deletes a post, the post and exactly the
    comments that belong to it leave the store; the other posts, the
    comments of other posts and the users stay as they are.  Afterwards
    the listing of that post is empty and a vote on it is answered
    [404]. *)
Theorem X17_deletePost_removes_post_and_comments (db : DB) (u id : ObjectId) (p : Post) :
  posts db !! id = Some p → post_author p = u →
  let db' := snd (deletePost u id None db) in
  fst (deletePost u id None db) = Message 200 "Post deleted successfully" ∧
  posts db' = delete id (posts db) ∧
  (∀ k c, comments db' !! k = Some c ↔
          comments db !! k = Some c ∧ comment_post c ≠ id) ∧
  users db' = users db ∧
  (∀ fuel, getComments (S fuel) id db' = Some (Json 200 [])) ∧
  (∀ w v, validVote v = true →
          votePost w id v None db' = (Message 404 "Post not found", db')).
Proof.
  intros Hp Ha db'. subst db'.
  rewrite (deletePost_run u id p db) by done. cbn [fst snd].
  assert (Hfilter : ∀ k c,
    filter (λ kc : nat * Comment, comment_post kc.2 ≠ id) (comments db) !! k = Some c ↔
    comments db !! k = Some c ∧ comment_post c ≠ id).
  { intros k c. by rewrite map_lookup_filter_Some. }
  split_and!; [done|done|exact Hfilter|done| |].
  - intros fuel. unfold getComments, findRoots. simpl.
    destruct (filter (isRootOf id) _) as [|[k c] l] eqn:Hf; [done|]. exfalso.
    assert ((k, c) ∈ filter (isRootOf id)
              (map_to_list (filter (λ kc : nat * Comment, comment_post kc.2 ≠ id)
                 (comments db))))
      as [[Hpost _] Hin%elem_of_map_to_list]%list_elem_of_filter
      by (rewrite Hf; left).
    apply Hfilter in Hin as [_ Hne]. by apply Hne.
  - intros w v Hv. unfold votePost, votePostBody. rewrite Hv. run_handler.
    by rewrite lookup_delete_eq.
Qed.

(** ** Who writes the users *)

(** X18.  Creating and deleting posts and comments never writes a user
    document, whichever store call rejects: karma changes only when a
    vote is cast. *)
Theorem X18_only_votes_write_users (db : DB) (flt : option (Await * string)) :
  (∀ newId u found, users (snd (createPost newId u found flt db)) = users db) ∧
  (∀ newId now u pid parent,
     users (snd (createComment newId now u pid parent flt db)) = users db) ∧
  (∀ u id, users (snd (deleteComment u id flt db)) = users db) ∧
  (∀ u id, users (snd (deletePost u id flt db)) = users db).
Proof.
  split_and!.
  - intros newId u found. unfold createPost, createPostBody.
    destruct found; simpl; [|done]. run_handler.
    by destruct flt as [[[] msg]|].
  - intros newId now u pid parent. unfold createComment, createCommentBody.
    run_handler.
    destruct flt as [[[] msg]|]; simpl;
      (destruct (posts db !! pid) as [p|]; simpl; [|done]); try done;
      (destruct parent as [par|]; simpl;
        [destruct (comments db !! par) as [pc|]; simpl; try done|]); done.
  - intros u id. unfold deleteComment, deleteCommentBody. run_handler2.
    destruct flt as [[[] msg]|]; simpl;
      (destruct (comments db !! id) as [c|]; simpl; [|done]); try done;
      (destruct (decide (comment_author c ≠ u)); simpl; [done|]); try done;
      destruct (posts db !! comment_post c); done.
  - intros u id. unfold deletePost, deletePostBody. run_handler2.
    destruct flt as [[[] msg]|]; simpl;
      (destruct (posts db !! id) as [p|]; simpl; [|done]); try done;
      (destruct (decide (post_author p ≠ u)); simpl; done).
Qed.

(** ** The comment count of a post *)















(** ** What holds in every store the handlers reach *)



(** ** Repeating an up or a down vote *)

Lemma applyVote_idem_nonzero u v t :
  v ≠ 0 → applyVote u v (applyVote u v t) = applyVote u v t.
Proof.
  intros Hz.
  destruct (decide (u ∈ user <$> voters t)) as [Hin|Hnin].
  - destruct (voters_split _ _ Hin) as (l1 & e & l2 & Hsplit & Hl1 & He).
    rewrite (applyVote_found u v t l1 e l2) by done.
    rewrite decide_False by done.
    rewrite (applyVote_found u v _ l1 (set_vote v e) l2);
      [|by rewrite voters_addVote|done|done].
    rewrite decide_False by done. simpl.
    set (t1 := removeVote (vote e) t).
    replace (set_voters (l1 ++ set_vote v e :: l2)
               (removeVote v (addVote v (set_voters (l1 ++ set_vote v e :: l2) t1))))
      with (set_voters (l1 ++ set_vote v e :: l2) (removeVote v (addVote v t1))).
    + by rewrite addVote_removeVote_same.
    + destruct t1. unfold addVote, removeVote. repeat case_decide; done.
  - rewrite (applyVote_absent u v t) by done.
    rewrite decide_True by done.
    rewrite (applyVote_found u v _ (voters t) (mkVoter u v) []);
      [|by rewrite voters_addVote| |done].
    + rewrite decide_False by done. simpl.
      replace (set_voters (voters t ++ [set_vote v (mkVoter u v)])
                 (removeVote v (addVote v (set_voters (voters t ++ [mkVoter u v]) t))))
        with (set_voters (voters t ++ [mkVoter u v]) (removeVote v (addVote v t))).
      * by rewrite addVote_removeVote_same.
      * destruct t. unfold addVote, removeVote. repeat case_decide; done.
    + apply Forall_forall. intros x Hx Hux. apply Hnin.
      apply list_elem_of_fmap. eauto.
Qed.

(** X22.  Casting the same up or down vote a second time changes
    nothing on any target, also on one whose [voters] array holds
    several entries of the caller: the second cast is answered as the
    first and leaves the whole store as the first left it.  For posts
    and for comments. *)
Theorem X22_repeated_vote_changes_nothing (db : DB) (u id : ObjectId) (v : Z) :
  v = 1 ∨ v = -1 →
  (∀ p, posts db !! id = Some p →
     votePost u id v None (snd (votePost u id v None db)) = votePost u id v None db) ∧
  (∀ c, comments db !! id = Some c →
     voteComment u id v None (snd (voteComment u id v None db))
       = voteComment u id v None db).
Proof.
  intros Hv01.
  assert (validVote v = true) as Hv by (apply validVote_spec; lia).
  assert (v ≠ 0) as Hz by lia.
  split.
  - intros p Hp.
    assert (votedPost u v (votedPost u v p) = votedPost u v p) as Hidem.
    { unfold votedPost, set_votes_post. simpl. by rewrite applyVote_idem_nonzero. }
    rewrite (votePost_run u id v p db) by done. simpl.
    set (db1 := savedPost id u v p db).
    rewrite (votePost_run u id v (votedPost u v p)); [|done|].
    + rewrite Hidem. f_equal. simpl.
      assert (savedPost id u v (votedPost u v p)
                (storeKarma (post_author p) (postsKarma (post_author p) db1) db1)
              = storeKarma (post_author p) (postsKarma (post_author p) db1) db1) as ->.
      { unfold savedPost. rewrite Hidem.
        rewrite posts_storeKarma. unfold db1, savedPost. simpl.
        rewrite insert_insert_eq.
        unfold storeKarma, set_posts, set_users. simpl.
        destruct (users db !! post_author p); done. }
      unfold postsKarma at 1. rewrite posts_storeKarma.
      apply storeKarma_idem.
    + rewrite posts_storeKarma. unfold db1, savedPost. simpl.
      apply lookup_insert_eq.
  - intros c Hc.
    assert (votedComment u v (votedComment u v c) = votedComment u v c) as Hidem.
    { unfold votedComment, set_votes_comment. simpl.
      by rewrite applyVote_idem_nonzero. }
    rewrite (voteComment_run u id v c db) by done. simpl.
    set (db1 := savedComment id u v c db).
    rewrite (voteComment_run u id v (votedComment u v c)); [|done|].
    + rewrite Hidem. f_equal. simpl.
      set (k := postsKarma (comment_author c) db1 + commentsKarma (comment_author c) db1).
      assert (savedComment id u v (votedComment u v c)
                (storeKarma (comment_author c) k db1)
              = storeKarma (comment_author c) k db1) as ->.
      { unfold savedComment. rewrite Hidem.
        rewrite comments_storeKarma. unfold db1, savedComment. simpl.
        rewrite insert_insert_eq.
        unfold storeKarma, set_comments, set_users. simpl.
        destruct (users db !! comment_author c); done. }
      unfold postsKarma at 1, commentsKarma at 1.
      rewrite posts_storeKarma, comments_storeKarma.
      apply storeKarma_idem.
    + rewrite comments_storeKarma. unfold db1, savedComment. simpl.
      apply lookup_insert_eq.
Qed.

(** * Communities *)

Lemma filter_ne_absent (u : ObjectId) (l : list ObjectId) :
  u ∉ l → filter (λ m, m ≠ u) l = l.
Proof.
  intros Hn. induction l as [|x l IH]; [done|].
  rewrite filter_cons. rewrite not_elem_of_cons in Hn. destruct Hn as [Hx Hl].
  rewrite decide_True by done. by rewrite IH.
Qed.

Lemma filter_ne_length (u : ObjectId) (l : list ObjectId) :
  NoDup l → u ∈ l → S (length (filter (λ m, m ≠ u) l)) = length l.
Proof.
  intros Hnd Hin. induction l as [|x l IH]; [by apply elem_of_nil in Hin|].
  apply NoDup_cons in Hnd as [Hx Hnd]. rewrite filter_cons.
  destruct (decide (x ≠ u)) as [Hne|Heq].
  - simpl. f_equal. apply IH; [done|].
    apply elem_of_cons in Hin as [->|Hin]; done.
  - assert (x = u) as -> by (destruct (decide (x = u)); [done|by destruct Heq]).
    by rewrite filter_ne_absent.
Qed.

Section CommunityProperties.

Context (storedName trimmed : string → string).
Context (View : Type) (populated : gmap nat User → Community → View).


(** X23.  Joining, under the name as the schema stores it: when no
    community has that name the request is answered [404], and when the
    user is already a member [400], both without writing; otherwise the
    user is appended to the members, [memberCount] grows by one,
    nothing else of the community and no other community changes, and
    a second request to join is answered [400] and writes nothing. *)
Theorem X23_joinCommunity (cs : gmap string Community) (u : ObjectId) (name : string) :
  (cs !! storedName name = None →
     joinCommunity storedName View u name cs = (Message 404 "Community not found", cs)) ∧
  (∀ c, cs !! storedName name = Some c → u ∈ members c →
     joinCommunity storedName View u name cs
       = (Message 400 "Already a member of this community", cs)) ∧
  (∀ c, cs !! storedName name = Some c → u ∉ members c →
     let r := joinCommunity storedName View u name cs in
     fst r = Message 200 "Successfully joined community" ∧
     snd r = <[storedName name :=
                 set_members (members c ++ [u]) (memberCount c + 1) c]> cs ∧
     joinCommunity storedName View u name (snd r)
       = (Message 400 "Already a member of this community", snd r)).
Proof using Type.
  clear trimmed populated.
  split_and!.
  - intros Hc. unfold joinCommunity, findCommunity. by rewrite Hc.
  - intros c Hc Hin. unfold joinCommunity, findCommunity. rewrite Hc.
    by rewrite decide_True.
  - intros c Hc Hn r. subst r.
    assert (joinCommunity storedName View u name cs
            = (Message 200 "Successfully joined community",
               <[storedName name :=
                   set_members (members c ++ [u]) (memberCount c + 1) c]> cs))
      as ->.
    { unfold joinCommunity, findCommunity, saveCommunity. rewrite Hc.
      by rewrite decide_False. }
    cbn [fst snd]. split_and!; [done..|].
    unfold joinCommunity, findCommunity. rewrite lookup_insert_eq. simpl.
    rewrite decide_True; [done|]. apply elem_of_app. right. left.
Qed.

(** X24.  Leaving, under the name as the schema stores it: when no
    community has that name the request is answered [404], and when the
    user is not a member [400], both without writing; otherwise every
    entry of the user is removed from the members, [memberCount]
    becomes [max 0 (memberCount - 1)], and the moderators and the
    creator stay as they are, so that a moderator who leaves remains
    a moderator. *)
Theorem X24_leaveCommunity (cs : gmap string Community) (u : ObjectId) (name : string) :
  (cs !! storedName name = None →
     leaveCommunity storedName View u name cs = (Message 404 "Community not found", cs)) ∧
  (∀ c, cs !! storedName name = Some c → u ∉ members c →
     leaveCommunity storedName View u name cs
       = (Message 400 "Not a member of this community", cs)) ∧
  (∀ c, cs !! storedName name = Some c → u ∈ members c →
     fst (leaveCommunity storedName View u name cs) = Message 200 "Successfully left community" ∧
     ∃ c', snd (leaveCommunity storedName View u name cs) = <[storedName name := c']> cs ∧
           (u ∉ members c') ∧
           (∀ w, w ≠ u → (w ∈ members c' ↔ w ∈ members c)) ∧
           memberCount c' = Z.max 0 (memberCount c - 1) ∧ 0 ≤ memberCount c' ∧
           moderators c' = moderators c ∧ creator c' = creator c).
Proof using Type.
  clear trimmed populated.
  split_and!.
  - intros Hc. unfold leaveCommunity, findCommunity. by rewrite Hc.
  - intros c Hc Hn. unfold leaveCommunity, findCommunity. rewrite Hc.
    by rewrite decide_True.
  - intros c Hc Hin. unfold leaveCommunity, findCommunity, saveCommunity. rewrite Hc.
    rewrite decide_False by (intros H; by apply H). cbn [fst snd].
    split; [done|]. eexists. split; [reflexivity|]. simpl.
    split_and!; [| |done|lia|done|done].
    + rewrite list_elem_of_filter. intros [Hne _]. by apply Hne.
    + intros w Hw. rewrite list_elem_of_filter. tauto.
Qed.

(** X25.  Joining and then leaving gives back the store as it was, when
    the user was not a member and [memberCount] was not negative. *)
Theorem X25_join_then_leave_restores (cs : gmap string Community) (u : ObjectId)
    (name : string) (c : Community) :
  cs !! storedName name = Some c → u ∉ members c → 0 ≤ memberCount c →
  leaveCommunity storedName View u name (snd (joinCommunity storedName View u name cs))
    = (Message 200 "Successfully left community", cs).
Proof using Type.
  clear trimmed populated.
  intros Hc Hn Hcount. unfold joinCommunity, findCommunity, saveCommunity. rewrite Hc.
  rewrite decide_False by done. cbn [snd].
  unfold leaveCommunity, findCommunity, saveCommunity. rewrite lookup_insert_eq. simpl.
  rewrite decide_False.
  - f_equal. rewrite insert_insert_eq. apply insert_id. rewrite Hc. f_equal.
    destruct c as [d cr mods ms n rs]. unfold set_members. simpl in *. f_equal.
    + rewrite filter_app, filter_ne_absent by done.
      rewrite filter_cons, decide_False by (intros H; by apply H).
      by rewrite filter_nil, app_nil_r.
    + lia.
  - intros H. apply H. apply elem_of_app. right. left.
Qed.

(** X26.  Removing a moderator, under the name as the schema stores
    it: when no community has that name the request is answered [404],
    when the caller is not the creator [403], and when the user to
    remove is the creator [400], all without writing.  Otherwise the
    user is taken out of the moderators, whether or not the user was
    one, and the request is answered with the saved community as
    populated; the other moderators, the members and [memberCount]
    stay as they are, so that a removed moderator remains a member. *)
Theorem X26_removeModerator (us : gmap nat User) (cs : gmap string Community)
    (caller : ObjectId) (name : string) (userId : ObjectId) :
  (cs !! storedName name = None →
     removeModerator storedName View populated caller name userId us cs
       = (Message 404 "Community not found", cs)) ∧
  (∀ c, cs !! storedName name = Some c → creator c ≠ caller →
     removeModerator storedName View populated caller name userId us cs
       = (Message 403 "Only the community creator can remove moderators", cs)) ∧
  (∀ c, cs !! storedName name = Some c → creator c = caller → creator c = userId →
     removeModerator storedName View populated caller name userId us cs
       = (Message 400 "Cannot remove the community creator from moderators", cs)) ∧
  (∀ c, cs !! storedName name = Some c → creator c = caller → creator c ≠ userId →
     ∃ c', removeModerator storedName View populated caller name userId us cs
             = (Json 200 (populated us c'), <[storedName name := c']> cs) ∧
           (userId ∉ moderators c') ∧
           (∀ w, w ≠ userId → (w ∈ moderators c' ↔ w ∈ moderators c)) ∧
           members c' = members c ∧ memberCount c' = memberCount c ∧
           creator c' = creator c).
Proof using Type.
  clear trimmed.
  split_and!.
  - intros Hc. unfold removeModerator, findCommunity. by rewrite Hc.
  - intros c Hc Hne. unfold removeModerator, findCommunity. rewrite Hc.
    by rewrite decide_True.
  - intros c Hc Hcaller Hu. unfold removeModerator, findCommunity. rewrite Hc.
    rewrite decide_False by (intros H; by apply H). by rewrite decide_True.
  - intros c Hc Hcaller Hu. unfold removeModerator, findCommunity, saveCommunity.
    rewrite Hc.
    rewrite decide_False by (intros H; by apply H). rewrite decide_False by done.
    eexists. split; [reflexivity|]. simpl. split_and!; try done.
    + rewrite list_elem_of_filter. intros [Hne _]. by apply Hne.
    + intros w Hw. rewrite list_elem_of_filter. tauto.
Qed.

(** X27.  No request to add a moderator changes the store, whoever
    sends it and whatever users are stored.  Under the name as the
    schema stores it: when no community has that name the request is
    answered [404], when the caller is not the creator [403], and when
    the caller is the creator the lookup of the user throws, because
    the module does not bind [mongoose], and the request is answered
    [400] with the message of that error, so that the statements that
    would add the moderator are never reached. *)
Theorem X27_addModerator_never_adds (us : gmap nat User) (cs : gmap string Community)
    (caller : ObjectId) (name : string) (userId : ObjectId) :
  snd (addModerator storedName View populated caller name userId us cs) = cs ∧
  (cs !! storedName name = None →
     fst (addModerator storedName View populated caller name userId us cs)
       = Message 404 "Community not found") ∧
  (∀ c, cs !! storedName name = Some c → creator c ≠ caller →
     fst (addModerator storedName View populated caller name userId us cs)
       = Message 403 "Only the community creator can add moderators") ∧
  (∀ c, cs !! storedName name = Some c → creator c = caller →
     fst (addModerator storedName View populated caller name userId us cs)
       = Message 400 "mongoose is not defined").
Proof using Type.
  clear trimmed.
  unfold addModerator, findCommunity. split_and!.
  - destruct (cs !! storedName name) as [c|]; [|done].
    destruct (decide (creator c ≠ caller)); [done|].
    unfold findUserById, mongooseBound. done.
  - by intros ->.
  - intros c -> Hne. by rewrite decide_True.
  - intros c -> Hcaller. rewrite decide_False by (intros H; by apply H).
    unfold findUserById, mongooseBound. done.
Qed.

(** X28.  Every request that writes a community keeps the communities
    well formed: when in every community the members are listed once
    each, [memberCount] is their number and the creator is a moderator,
    the same holds after the request. *)
Theorem X28_requests_keep_communities_well_formed (r : CommunityRequest)
    (name : string) (us : gmap nat User) (cs : gmap string Community) :
  map_Forall (λ _ c, communityOK c) cs →
  map_Forall (λ _ c, communityOK c)
    (snd (serveCommunity storedName trimmed View populated r name us cs)).
Proof using Type.
  intros Hok.
  assert (Hsave : ∀ c', communityOK c' →
            map_Forall (λ _ c, communityOK c) (saveCommunity storedName name c' cs)).
  { intros c' Hc'. by apply map_Forall_insert_2. }
  destruct r as [u|u|caller u|caller u|caller d rs]; simpl.
  - unfold joinCommunity, findCommunity.
    destruct (cs !! storedName name) as [c|] eqn:Hc; [|done].
    destruct (decide (u ∈ members c)); [done|]. cbn [snd]. apply Hsave.
    destruct (Hok _ _ Hc) as [Hnd Hcount Hcr]. split; simpl.
    + apply NoDup_app. split_and!; [done| |apply NoDup_singleton].
      intros x Hx ->%list_elem_of_singleton. done.
    + rewrite length_app. simpl. lia.
    + done.
  - unfold leaveCommunity, findCommunity.
    destruct (cs !! storedName name) as [c|] eqn:Hc; [|done].
    destruct (decide (u ∉ members c)) as [|Hin]; [done|]. cbn [snd]. apply Hsave.
    destruct (Hok _ _ Hc) as [Hnd Hcount Hcr]. split; simpl.
    + by apply NoDup_filter.
    + assert (u ∈ members c) as Hin' by (destruct (decide (u ∈ members c)); done).
      pose proof (filter_ne_length u (members c) Hnd Hin'). lia.
    + done.
  - unfold addModerator, findCommunity.
    destruct (cs !! storedName name) as [c|] eqn:Hc; [|done].
    destruct (decide (creator c ≠ caller)); [done|].
    destruct (findUserById us u) as [msg|[usr|]]; [done| |done].
    destruct (decide (u ∈ moderators c)) as [|Hmod]; [done|]. cbn [snd]. apply Hsave.
    destruct (Hok _ _ Hc) as [Hnd Hcount Hcr]. simpl.
    destruct (decide (u ∉ members c)) as [Hn|Hin]; split; simpl; try done.
    + apply NoDup_app. split_and!; [done| |apply NoDup_singleton].
      intros x Hx ->%list_elem_of_singleton. done.
    + rewrite length_app. simpl. lia.
    + apply elem_of_app. by left.
    + apply elem_of_app. by left.
  - unfold removeModerator, findCommunity.
    destruct (cs !! storedName name) as [c|] eqn:Hc; [|done].
    destruct (decide (creator c ≠ caller)); [done|].
    destruct (decide (creator c = u)); [done|]. cbn [snd]. apply Hsave.
    destruct (Hok _ _ Hc) as [Hnd Hcount Hcr]. split; simpl; [done..|].
    apply list_elem_of_filter. done.
  - unfold updateCommunity, findCommunity.
    destruct (cs !! storedName name) as [c|] eqn:Hc; [|done].
    destruct (decide (caller ∉ moderators c)); [done|]. cbn [snd]. apply Hsave.
    destruct (Hok _ _ Hc) as [Hnd Hcount Hcr].
    destruct d, rs; split; done.
Qed.

End CommunityProperties.

(** * The further properties at concrete stores *)

(** X1 for user 2 up-voting post 10 and down-voting comment 20 of
    [karmaDB]. *)
Lemma X1_cast_moves_counters_by_difference_witness :
  (∃ p', posts (snd (votePost 2%nat 10%nat 1 None karmaDB)) !! 10%nat = Some p' ∧
         upvotes (post_votes p')
           = upvotes (post_votes karmaPost)
             - counts (recorded 2%nat (voters (post_votes karmaPost))) 1 + counts 1 1 ∧
         downvotes (post_votes p')
           = downvotes (post_votes karmaPost)
             - counts (recorded 2%nat (voters (post_votes karmaPost))) (-1)
             + counts 1 (-1) ∧
         fst (votePost 2%nat 10%nat 1 None karmaDB)
           = VoteRecorded (upvotes (post_votes p')) (downvotes (post_votes p'))) ∧
  (∃ c', comments (snd (voteComment 2%nat 20%nat (-1) None karmaDB)) !! 20%nat = Some c' ∧
         upvotes (comment_votes c')
           = upvotes (comment_votes karmaComment)
             - counts (recorded 2%nat (voters (comment_votes karmaComment))) 1
             + counts (-1) 1 ∧
         downvotes (comment_votes c')
           = downvotes (comment_votes karmaComment)
             - counts (recorded 2%nat (voters (comment_votes karmaComment))) (-1)
             + counts (-1) (-1) ∧
         fst (voteComment 2%nat 20%nat (-1) None karmaDB)
           = VoteRecorded (upvotes (comment_votes c')) (downvotes (comment_votes c'))).
Proof.
  split.
  - apply (proj1 (X1_cast_moves_counters_by_difference karmaDB 2%nat 10%nat 1 eq_refl)).
    vm_compute; reflexivity.
  - apply (proj2 (X1_cast_moves_counters_by_difference karmaDB 2%nat 20%nat (-1) eq_refl)).
    vm_compute; reflexivity.
Defined.

(** X2 for the same two casts. *)
Lemma X2_cast_stores_the_value_cast_witness :
  (∃ p', posts (snd (votePost 2%nat 10%nat 1 None karmaDB)) !! 10%nat = Some p' ∧
         recorded 2%nat (voters (post_votes p')) = 1 ∧
         ∀ u', u' ≠ 2%nat →
           recorded u' (voters (post_votes p'))
             = recorded u' (voters (post_votes karmaPost))) ∧
  (∃ c', comments (snd (voteComment 2%nat 20%nat (-1) None karmaDB)) !! 20%nat = Some c' ∧
         recorded 2%nat (voters (comment_votes c')) = -1 ∧
         ∀ u', u' ≠ 2%nat →
           recorded u' (voters (comment_votes c'))
             = recorded u' (voters (comment_votes karmaComment))).
Proof.
  split.
  - apply (proj1 (X2_cast_stores_the_value_cast karmaDB 2%nat 10%nat 1 eq_refl)).
    + vm_compute; reflexivity.
    + simpl. apply NoDup_nil_2.
  - apply (proj2 (X2_cast_stores_the_value_cast karmaDB 2%nat 20%nat (-1) eq_refl)).
    + vm_compute; reflexivity.
    + simpl. apply NoDup_singleton.
Defined.

(** X3 for user 3, who has no vote on post 10 nor on comment 20 of
    [karmaDB]. *)
Lemma X3_vote_then_retract_restores_target_witness :
  (let db' := snd (votePost 3%nat 10%nat 0 None
                     (snd (votePost 3%nat 10%nat 1 None karmaDB))) in
   posts db' = posts karmaDB ∧ comments db' = comments karmaDB) ∧
  (let db' := snd (voteComment 3%nat 20%nat 0 None
                     (snd (voteComment 3%nat 20%nat (-1) None karmaDB))) in
   posts db' = posts karmaDB ∧ comments db' = comments karmaDB).
Proof.
  split.
  - apply (proj1 (X3_vote_then_retract_restores_target karmaDB 3%nat 10%nat 1
                    (or_introl eq_refl)) karmaPost).
    + vm_compute; reflexivity.
    + simpl. apply not_elem_of_nil.
  - apply (proj2 (X3_vote_then_retract_restores_target karmaDB 3%nat 20%nat (-1)
                    (or_intror eq_refl)) karmaComment).
    + vm_compute; reflexivity.
    + simpl. intros Hin%list_elem_of_singleton. discriminate Hin.
Defined.

(** X4 for user 2 up-voting post 10 of [karmaDB] while the save of the
    author rejects: comment 20 and the users other than user 1 are
    untouched. *)
Lemma X4_votePost_frame_witness :
  comments (snd (votePost 2%nat 10%nat 1 (Some (UserSave, "write failed")) karmaDB))
    = comments karmaDB ∧
  (∃ p', posts (snd (votePost 2%nat 10%nat 1 (Some (UserSave, "write failed")) karmaDB))
           !! 10%nat = Some p' ∧
         post_author p' = post_author karmaPost ∧
         commentCount p' = commentCount karmaPost) ∧
  users (snd (votePost 2%nat 10%nat 1 (Some (UserSave, "write failed")) karmaDB)) !! 2%nat
    = users karmaDB !! 2%nat.
Proof.
  destruct (X4_votePost_frame karmaDB 2%nat 10%nat 1 (Some (UserSave, "write failed")))
    as (_ & Hc & Hp & Hu).
  split_and!.
  - exact Hc.
  - apply Hp. vm_compute; reflexivity.
  - apply (Hu karmaPost); [vm_compute; reflexivity|simpl; lia].
Defined.

(** X5 for user 2 retracting the vote on comment 20 of [karmaDB]. *)
Lemma X5_voteComment_frame_witness :
  posts (snd (voteComment 2%nat 20%nat 0 None karmaDB)) = posts karmaDB ∧
  (∃ c', comments (snd (voteComment 2%nat 20%nat 0 None karmaDB)) !! 20%nat = Some c' ∧
         comment_author c' = comment_author karmaComment ∧
         comment_post c' = comment_post karmaComment ∧
         parentId c' = parentId karmaComment ∧
         createdAt c' = createdAt karmaComment) ∧
  users (snd (voteComment 2%nat 20%nat 0 None karmaDB)) !! 2%nat = users karmaDB !! 2%nat.
Proof.
  destruct (X5_voteComment_frame karmaDB 2%nat 20%nat 0 None) as (_ & Hp & Hc & Hu).
  split_and!.
  - exact Hp.
  - apply Hc. vm_compute; reflexivity.
  - apply (Hu karmaComment); [vm_compute; reflexivity|simpl; lia].
Defined.

(** X6 for user 3 up-voting comment 20 of [karmaDB]. *)
Lemma X6_comment_vote_stores_total_karma_witness :
  let db' := snd (voteComment 3%nat 20%nat 1 None karmaDB) in
  karma <$> users db' !! comment_author karmaComment
    = Some (totalKarma (comment_author karmaComment) db').
Proof.
  apply (X6_comment_vote_stores_total_karma karmaDB 3%nat 20%nat 1 karmaComment
           (mkUser 1)); vm_compute; reflexivity.
Defined.

(** X7 for user 3 up-voting post 10 of [karmaDB]. *)
Lemma X7_post_vote_stores_posts_karma_witness :
  let db' := snd (votePost 3%nat 10%nat 1 None karmaDB) in
  karma <$> users db' !! post_author karmaPost
    = Some (postsKarma (post_author karmaPost) db').
Proof.
  apply (X7_post_vote_stores_posts_karma karmaDB 3%nat 10%nat 1 karmaPost (mkUser 1));
    vm_compute; reflexivity.
Defined.

(** X8 on [authorlessDB]. *)
Lemma X8_vote_without_stored_author_witness :
  votePost 3%nat 10%nat 1 None authorlessDB
    = (VoteRecorded (upvotes (post_votes (votedPost 3%nat 1 karmaPost)))
                    (downvotes (post_votes (votedPost 3%nat 1 karmaPost))),
       savedPost 10%nat 3%nat 1 karmaPost authorlessDB) ∧
  voteComment 3%nat 20%nat 1 None authorlessDB
    = (VoteRecorded (upvotes (comment_votes (votedComment 3%nat 1 karmaComment)))
                    (downvotes (comment_votes (votedComment 3%nat 1 karmaComment))),
       savedComment 20%nat 3%nat 1 karmaComment authorlessDB).
Proof.
  split.
  - apply (proj1 (X8_vote_without_stored_author authorlessDB 3%nat 10%nat 1 eq_refl));
      vm_compute; reflexivity.
  - apply (proj2 (X8_vote_without_stored_author authorlessDB 3%nat 20%nat 1 eq_refl));
      vm_compute; reflexivity.
Defined.

(** X9 on [threadDB], whose only post is 7 and which has no comment
    99. *)
Lemma X9_createComment_rejections_witness :
  createComment 30%nat 9 2%nat 8%nat None None threadDB
    = (Message 404 "Post not found", threadDB) ∧
  createComment 30%nat 9 2%nat 7%nat (Some 99%nat) None threadDB
    = (Message 404 "Parent comment not found", threadDB).
Proof.
  split.
  - apply (proj1 (X9_createComment_rejections threadDB 30%nat 9 2%nat 8%nat)).
    + vm_compute; reflexivity.
    + intros [msg Hmsg]. discriminate Hmsg.
  - apply (proj2 (X9_createComment_rejections threadDB 30%nat 9 2%nat 7%nat)
             99%nat (mkPost 1%nat 5 fresh)); vm_compute; reflexivity.
Defined.

(** X10 for a reply of user 2, on post 10 of [freshDB], to comment 20. *)
Lemma X10_createComment_stores_and_counts_witness :
  let c := mkComment 2%nat 10%nat (Some 20%nat) 9 fresh in
  let r := createComment 30%nat 9 2%nat 10%nat (Some 20%nat) None freshDB in
  fst r = Json 201 (30%nat, c) ∧
  comments (snd r) !! 30%nat = Some c ∧
  (∀ id, id ≠ 30%nat → comments (snd r) !! id = comments freshDB !! id) ∧
  posts (snd r) !! 10%nat
    = Some (set_commentCount (commentCount (mkPost 1%nat 0 fresh) + 1)
              (mkPost 1%nat 0 fresh)) ∧
  (∀ id, id ≠ 10%nat → posts (snd r) !! id = posts freshDB !! id) ∧
  users (snd r) = users freshDB.
Proof.
  apply (X10_createComment_stores_and_counts freshDB 30%nat 9 2%nat 10%nat
           (Some 20%nat) (mkPost 1%nat 0 fresh)).
  - vm_compute; reflexivity.
  - simpl. eexists. vm_compute; reflexivity.
Defined.

(** X11 for the same reply, deleted again by user 2. *)
Lemma X11_create_then_delete_restores_store_witness :
  deleteComment 2%nat 30%nat None
    (snd (createComment 30%nat 9 2%nat 10%nat (Some 20%nat) None freshDB))
    = (Message 200 "Comment deleted successfully", freshDB).
Proof.
  apply (X11_create_then_delete_restores_store freshDB 30%nat 9 2%nat 10%nat
           (Some 20%nat) (mkPost 1%nat 0 fresh)).
  - vm_compute; reflexivity.
  - simpl. eexists. vm_compute; reflexivity.
  - vm_compute; reflexivity.
  - simpl. lia.
Defined.

(** X12 for reply 14 in the listing of post 7 of [threadDB]. *)
Lemma X12_listing_shows_stored_comments_witness :
  comments threadDB !! 14%nat = Some (mkComment 1%nat 7%nat (Some 11%nat) 4 fresh) ∧
  is_Some (comments threadDB !! 11%nat).
Proof.
  apply (X12_listing_shows_stored_comments threadDB 2%nat 7%nat
           [ Node 13%nat (mkComment 1%nat 7%nat None 3 fresh) [];
             Node 12%nat (mkComment 1%nat 7%nat None 2 fresh) [];
             Node 11%nat (mkComment 1%nat 7%nat None 1 fresh)
               [ Node 14%nat (mkComment 1%nat 7%nat (Some 11%nat) 4 fresh) [];
                 Node 15%nat (mkComment 1%nat 7%nat (Some 11%nat) 5 fresh) [] ] ]
           (14%nat, mkComment 1%nat 7%nat (Some 11%nat) 4 fresh)).
  - vm_compute; reflexivity.
  - simpl. do 3 apply list_elem_of_further. apply list_elem_of_here.
Defined.

(** X13 for a root comment of user 2 on post 10 of [freshDB]. *)
Lemma X13_created_root_is_listed_witness :
  (30%nat, mkComment 2%nat 10%nat None 9 fresh)
    ∈ nodeDoc <$> [ Node 30%nat (mkComment 2%nat 10%nat None 9 fresh) [];
                   Node 20%nat (mkComment 1%nat 10%nat None 5 fresh) [] ].
Proof.
  apply (X13_created_root_is_listed freshDB 30%nat 9 2%nat 10%nat
           (mkPost 1%nat 0 fresh) 1%nat).
  - vm_compute; reflexivity.
  - vm_compute; reflexivity.
Defined.

(** X14 on [threadDB]: no comment 99, and comment 11 is of user 1. *)
Lemma X14_deleteComment_rejections_witness :
  deleteComment 2%nat 99%nat None threadDB = (Message 404 "Comment not found", threadDB) ∧
  deleteComment 2%nat 11%nat None threadDB
    = (Message 403 "Not authorized to delete this comment", threadDB).
Proof.
  destruct (X14_deleteComment_rejections threadDB 2%nat 99%nat None) as [H404 _].
  { intros [msg Hmsg]. discriminate Hmsg. }
  destruct (X14_deleteComment_rejections threadDB 2%nat 11%nat None) as [_ H403].
  { intros [msg Hmsg]. discriminate Hmsg. }
  split.
  - apply H404. vm_compute; reflexivity.
  - apply (H403 (mkComment 1%nat 7%nat None 1 fresh)).
    + vm_compute; reflexivity.
    + simpl. lia.
Defined.

(** X15 on [threadDB]: user 1 deletes comment 11; its reply 14 stays
    stored and is in no listing. *)
Lemma X15_deleteComment_orphans_replies_witness :
  let db' := snd (deleteComment 1%nat 11%nat None threadDB) in
  comments db' !! 14%nat = Some (mkComment 1%nat 7%nat (Some 11%nat) 4 fresh) ∧
  ∀ fuel postId forest,
    getComments fuel postId db' = Some (Json 200 forest) →
    (14%nat, mkComment 1%nat 7%nat (Some 11%nat) 4 fresh) ∉ forestDocs forest.
Proof.
  destruct (X15_deleteComment_orphans_replies threadDB 1%nat 11%nat
              (mkComment 1%nat 7%nat None 1 fresh)) as [_ Hreplies].
  - vm_compute; reflexivity.
  - reflexivity.
  - apply Hreplies.
    + vm_compute; reflexivity.
    + reflexivity.
    + lia.
Defined.

(** X16 on [threadDB]: no post 8, and post 7 is of user 1. *)
Lemma X16_deletePost_rejections_witness :
  deletePost 2%nat 8%nat None threadDB = (Message 404 "Post not found", threadDB) ∧
  deletePost 2%nat 7%nat None threadDB
    = (Message 403 "Not authorized to delete this post", threadDB).
Proof.
  destruct (X16_deletePost_rejections threadDB 2%nat 8%nat None) as [H404 _].
  { intros [msg Hmsg]. discriminate Hmsg. }
  destruct (X16_deletePost_rejections threadDB 2%nat 7%nat None) as [_ H403].
  { intros [msg Hmsg]. discriminate Hmsg. }
  split.
  - apply H404. vm_compute; reflexivity.
  - apply (H403 (mkPost 1%nat 5 fresh)).
    + vm_compute; reflexivity.
    + simpl. lia.
Defined.

(** X17 on [threadDB]: user 1 deletes post 7. *)
Lemma X17_deletePost_removes_post_and_comments_witness :
  let db' := snd (deletePost 1%nat 7%nat None threadDB) in
  fst (deletePost 1%nat 7%nat None threadDB) = Message 200 "Post deleted successfully" ∧
  posts db' = delete 7%nat (posts threadDB) ∧
  (∀ k c, comments db' !! k = Some c ↔
          comments threadDB !! k = Some c ∧ comment_post c ≠ 7%nat) ∧
  users db' = users threadDB ∧
  (∀ fuel, getComments (S fuel) 7%nat db' = Some (Json 200 [])) ∧
  (∀ w v, validVote v = true →
          votePost w 7%nat v None db' = (Message 404 "Post not found", db')).
Proof.
  apply (X17_deletePost_removes_post_and_comments threadDB 1%nat 7%nat
           (mkPost 1%nat 5 fresh)).
  - vm_compute; reflexivity.
  - reflexivity.
Defined.




(** X22 for user 2 down-voting post 10 and comment 20 of [karmaDB]
    twice. *)
Lemma X22_repeated_vote_changes_nothing_witness :
  votePost 2%nat 10%nat (-1) None (snd (votePost 2%nat 10%nat (-1) None karmaDB))
    = votePost 2%nat 10%nat (-1) None karmaDB ∧
  voteComment 2%nat 20%nat (-1) None (snd (voteComment 2%nat 20%nat (-1) None karmaDB))
    = voteComment 2%nat 20%nat (-1) None karmaDB.
Proof.
  split.
  - apply (proj1 (X22_repeated_vote_changes_nothing karmaDB 2%nat 10%nat (-1)
                    (or_intror eq_refl)) karmaPost).
    vm_compute; reflexivity.
  - apply (proj2 (X22_repeated_vote_changes_nothing karmaDB 2%nat 20%nat (-1)
                    (or_intror eq_refl)) karmaComment).
    vm_compute; reflexivity.
Defined.

(** X23 on [communityDB], with the ASCII setters: no community "coq";
    the request name " ROCQ" is stored as "rocq", of which user 2 is a
    member and user 3 is not. *)
Lemma X23_joinCommunity_witness :
  joinCommunity asciiStoredName unit 3%nat "coq" communityDB
    = (Message 404 "Community not found", communityDB) ∧
  joinCommunity asciiStoredName unit 2%nat " ROCQ" communityDB
    = (Message 400 "Already a member of this community", communityDB) ∧
  (let r := joinCommunity asciiStoredName unit 3%nat " ROCQ" communityDB in
   fst r = Message 200 "Successfully joined community" ∧
   snd r = <[asciiStoredName " ROCQ" :=
               set_members (members rocqCommunity ++ [3%nat])
                 (memberCount rocqCommunity + 1) rocqCommunity]> communityDB ∧
   joinCommunity asciiStoredName unit 3%nat " ROCQ" (snd r)
     = (Message 400 "Already a member of this community", snd r)).
Proof.
  split; [|split].
  - apply (proj1 (X23_joinCommunity asciiStoredName unit communityDB 3%nat "coq")).
    vm_compute; reflexivity.
  - apply (proj1 (proj2 (X23_joinCommunity asciiStoredName unit communityDB 2%nat " ROCQ"))
             rocqCommunity).
    + vm_compute; reflexivity.
    + simpl. apply list_elem_of_further, list_elem_of_here.
  - apply (proj2 (proj2 (X23_joinCommunity asciiStoredName unit communityDB 3%nat " ROCQ"))
             rocqCommunity).
    + vm_compute; reflexivity.
    + simpl. intros Hin.
      repeat (apply elem_of_cons in Hin as [Hin|Hin]; [discriminate Hin|]).
      by apply elem_of_nil in Hin.
Defined.

(** X24 on [communityDB]: the creator, user 1, leaves "rocq", asked for
    as "Rocq". *)
Lemma X24_leaveCommunity_witness :
  leaveCommunity asciiStoredName unit 3%nat "coq" communityDB
    = (Message 404 "Community not found", communityDB) ∧
  leaveCommunity asciiStoredName unit 3%nat "Rocq" communityDB
    = (Message 400 "Not a member of this community", communityDB) ∧
  (fst (leaveCommunity asciiStoredName unit 1%nat "Rocq" communityDB)
     = Message 200 "Successfully left community" ∧
   ∃ c', snd (leaveCommunity asciiStoredName unit 1%nat "Rocq" communityDB)
           = <[asciiStoredName "Rocq" := c']> communityDB ∧
         (1%nat ∉ members c') ∧
         (∀ w, w ≠ 1%nat → (w ∈ members c' ↔ w ∈ members rocqCommunity)) ∧
         memberCount c' = Z.max 0 (memberCount rocqCommunity - 1) ∧
         0 ≤ memberCount c' ∧
         moderators c' = moderators rocqCommunity ∧ creator c' = creator rocqCommunity).
Proof.
  split; [|split].
  - apply (proj1 (X24_leaveCommunity asciiStoredName unit communityDB 3%nat "coq")).
    vm_compute; reflexivity.
  - apply (proj1 (proj2 (X24_leaveCommunity asciiStoredName unit communityDB 3%nat "Rocq"))
             rocqCommunity).
    + vm_compute; reflexivity.
    + simpl. intros Hin.
      repeat (apply elem_of_cons in Hin as [Hin|Hin]; [discriminate Hin|]).
      by apply elem_of_nil in Hin.
  - apply (proj2 (proj2 (X24_leaveCommunity asciiStoredName unit communityDB 1%nat "Rocq"))
             rocqCommunity).
    + vm_compute; reflexivity.
    + simpl. apply list_elem_of_here.
Defined.

(** X25 on [communityDB]: user 3 joins "rocq" and leaves again. *)
Lemma X25_join_then_leave_restores_witness :
  leaveCommunity asciiStoredName unit 3%nat "rocq"
    (snd (joinCommunity asciiStoredName unit 3%nat "rocq" communityDB))
    = (Message 200 "Successfully left community", communityDB).
Proof.
  apply (X25_join_then_leave_restores asciiStoredName unit communityDB 3%nat "rocq"
           rocqCommunity).
  - vm_compute; reflexivity.
  - simpl. intros Hin.
    repeat (apply elem_of_cons in Hin as [Hin|Hin]; [discriminate Hin|]).
    by apply elem_of_nil in Hin.
  - simpl. lia.
Defined.

(** X26 on [communityDB] and the users of [karmaDB]: user 1 is the
    creator of "rocq". *)
Lemma X26_removeModerator_witness :
  removeModerator asciiStoredName _ withModerators 1%nat "coq" 2%nat
      (users karmaDB) communityDB
    = (Message 404 "Community not found", communityDB) ∧
  removeModerator asciiStoredName _ withModerators 2%nat "ROCQ" 2%nat
      (users karmaDB) communityDB
    = (Message 403 "Only the community creator can remove moderators", communityDB) ∧
  removeModerator asciiStoredName _ withModerators 1%nat "ROCQ" 1%nat
      (users karmaDB) communityDB
    = (Message 400 "Cannot remove the community creator from moderators", communityDB) ∧
  (∃ c', removeModerator asciiStoredName _ withModerators 1%nat "ROCQ" 2%nat
             (users karmaDB) communityDB
           = (Json 200 (withModerators (users karmaDB) c'),
              <[asciiStoredName "ROCQ" := c']> communityDB) ∧
         (2%nat ∉ moderators c') ∧
         (∀ w, w ≠ 2%nat → (w ∈ moderators c' ↔ w ∈ moderators rocqCommunity)) ∧
         members c' = members rocqCommunity ∧
         memberCount c' = memberCount rocqCommunity ∧
         creator c' = creator rocqCommunity).
Proof.
  split_and!.
  - apply (proj1 (X26_removeModerator asciiStoredName _ withModerators (users karmaDB)
                    communityDB 1%nat "coq" 2%nat)).
    vm_compute; reflexivity.
  - apply (proj1 (proj2 (X26_removeModerator asciiStoredName _ withModerators
                           (users karmaDB) communityDB 2%nat "ROCQ" 2%nat))
             rocqCommunity).
    + vm_compute; reflexivity.
    + simpl. lia.
  - apply (proj1 (proj2 (proj2 (X26_removeModerator asciiStoredName _ withModerators
                                  (users karmaDB) communityDB 1%nat "ROCQ" 1%nat)))
             rocqCommunity).
    + vm_compute; reflexivity.
    + reflexivity.
    + reflexivity.
  - apply (proj2 (proj2 (proj2 (X26_removeModerator asciiStoredName _ withModerators
                                  (users karmaDB) communityDB 1%nat "ROCQ" 2%nat)))
             rocqCommunity).
    + vm_compute; reflexivity.
    + reflexivity.
    + simpl. lia.
Defined.

(** X27 on [communityDB]: the creator of "rocq" asks to add user 1 of
    [karmaDB], user 2 asks the same, and the creator asks it of a
    community that does not exist. *)
Lemma X27_addModerator_never_adds_witness :
  fst (addModerator asciiStoredName _ withModerators 1%nat "coq" 1%nat
         (users karmaDB) communityDB)
    = Message 404 "Community not found" ∧
  fst (addModerator asciiStoredName _ withModerators 2%nat "rocq" 1%nat
         (users karmaDB) communityDB)
    = Message 403 "Only the community creator can add moderators" ∧
  fst (addModerator asciiStoredName _ withModerators 1%nat "rocq" 1%nat
         (users karmaDB) communityDB)
    = Message 400 "mongoose is not defined".
Proof.
  split_and!.
  - apply (proj1 (proj2 (X27_addModerator_never_adds asciiStoredName _ withModerators
                           (users karmaDB) communityDB 1%nat "coq" 1%nat))).
    vm_compute; reflexivity.
  - apply (proj1 (proj2 (proj2 (X27_addModerator_never_adds asciiStoredName _
                                  withModerators (users karmaDB) communityDB
                                  2%nat "rocq" 1%nat))) rocqCommunity).
    + vm_compute; reflexivity.
    + simpl. lia.
  - apply (proj2 (proj2 (proj2 (X27_addModerator_never_adds asciiStoredName _
                                  withModerators (users karmaDB) communityDB
                                  1%nat "rocq" 1%nat))) rocqCommunity).
    + vm_compute; reflexivity.
    + reflexivity.
Defined.

(** X28 on [communityDB] for user 2 leaving "rocq". *)
Lemma X28_requests_keep_communities_well_formed_witness :
  map_Forall (λ _ c, communityOK c)
    (snd (serveCommunity asciiStoredName trimBlanks _ withModerators (Leave 2%nat)
            "rocq" (users karmaDB) communityDB)).
Proof.
  apply X28_requests_keep_communities_well_formed.
  apply map_Forall_singleton. split; simpl.
  - apply NoDup_cons. split; [|apply NoDup_singleton].
    intros Hin%list_elem_of_singleton. discriminate Hin.
  - reflexivity.
  - apply list_elem_of_here.
Defined.
